(** * FloodMapper image acquisition: [scripts/01_download_images.py]

    A shallow embedding of the download orchestrator and the properties
    of it that the design document states.

    Conventions of the embedding.
    - Python floats (pixel fractions, thresholds) are exact rationals [Q];
      only their order and the two arithmetic operations the script
      applies to them ([1 - t] and [p / 100]) are used.
    - Aware datetimes are observed through their instant (seconds since
      the epoch, a [Z]) and their [year] attribute.
    - The table [image_downloads] is a finite map from [image_id] to a
      row: the upsert names [image_id] as its conflict target.
    - Every call that leaves the process (Earth Engine, the database) and
      every line written to the console is appended to a trace, so that
      the order of effects can be stated.
    - Exceptions, [continue] and [sys.exit] are outcomes of a small
      state-and-control monad. *)

From Stdlib Require Import QArith.
From stdpp Require Import gmap strings list fin_maps sorting pretty.

Local Open Scope Z_scope.

(** ** Python control flow *)

Inductive exn : Type :=
| Exception (what : string)   (* any subclass of Exception *)
| NameError (name : string)   (* a subclass of Exception as well *)
| SystemExit (msg : string).  (* raised by sys.exit; not an Exception *)

(** [except Exception] catches everything but [SystemExit]. *)
Definition is_Exception (e : exn) : bool :=
  match e with
  | SystemExit _ => false
  | Exception _ | NameError _ => true
  end.

Inductive outcome (A : Type) : Type :=
| Ret (a : A)
| Continue          (* the [continue] statement of the enclosing loop *)
| Raise (e : exn).
Arguments Ret {A} a.
Arguments Continue {A}.
Arguments Raise {A} e.

(** The answer of a library or remote call: a value, or the message of
    the Exception it raised. *)
Inductive answer (A : Type) : Type :=
| Ok (a : A)
| Err (what : string).
Arguments Ok {A} a.
Arguments Err {A} what.

(** ** Data *)

(** A job handle [ee.batch.Task]. What the platform will answer is part
    of the handle: [t_active p] is the answer of [task.active()] when it
    is asked during polling pass [p], and [t_state] is the state that
    [task.status()] reports once the job is inactive. *)
Record task : Type := Task {
  t_description : string;
  t_active : nat -> bool;
  t_state : string
}.

(** A row of [image_downloads] without its key [image_id]. *)
Record download_row : Type := Row {
  r_patch_name : option string;
  r_satellite : option string;
  r_date : option string;
  r_datetime : option Z;
  r_solarday : option string;
  r_solardatetime : option Z;
  r_cloud_probability : option Q;
  r_valids : option Q;
  r_status : Z;
  r_data_path : option string
}.

(** The dictionary [info_ee]. *)
Record info : Type := Info {
  cloud_probability : Q;
  valids : Q
}.

(** Lines written to the console. Lines that format a float carry the
    numbers instead of their rendering. *)
Inductive line : Type :=
| Text (s : string)
| Processing (i total : nat) (name satellite solar_day mode : string)
| ValidPixels (v thresh : Q)
| CloudPixels (c thresh : Q)
| TaskCount (n : nat)
| TaskError (t : string) (state : string)
| Summary (failed : nat).

Inductive event : Type :=
| Write (l : line)                          (* print / tq.write *)
| Warn (l : string) (e : exn)               (* warnings.warn + print_exc *)
| IsTaskRunning (desc : string)             (* ee_download.istaskrunning *)
| Select (image_id : string)                (* SELECT .. WHERE image_id *)
| Overlap (name : string)                   (* the area ratio *)
| GetInfo (desc : string)                   (* ee.Dictionary(..).getInfo() *)
| Export (desc : string)                    (* toCloudStorage + start *)
| Upsert (image_id : string) (r : download_row)
| Update (status : Z) (image_id : string)   (* UPDATE .. SET status *)
| DownloadPermanentWater (name_task : string)
| Active (desc : string)                    (* task.active() *)
| Sleep (interval_s : Z).                   (* time.sleep *)

Record state : Type := State {
  db : gmap string download_row;   (* table image_downloads *)
  tasks : list task;               (* the list [tasks] of main *)
  trace : list event
}.

Definition set_db (f : gmap string download_row -> gmap string download_row)
    (w : state) : state :=
  State (f (db w)) (tasks w) (trace w).
Definition set_tasks (f : list task -> list task) (w : state) : state :=
  State (db w) (f (tasks w)) (trace w).
Definition set_trace (f : list event -> list event) (w : state) : state :=
  State (db w) (tasks w) (f (trace w)).

(** ** The monad *)

Definition M (A : Type) : Type := state -> outcome A * state.

Definition ret {A} (a : A) : M A := fun w => (Ret a, w).

Definition bind {A B} (m : M A) (k : A -> M B) : M B :=
  fun w =>
    match m w with
    | (Ret a, w') => k a w'
    | (Continue, w') => (Continue, w')
    | (Raise e, w') => (Raise e, w')
    end.

Declare Scope py_scope.
Delimit Scope py_scope with py.
Notation "x <- m ;; k" := (bind m (fun x => k))
  (at level 20, m at level 99, k at level 200, only parsing) : py_scope.
Notation "m ;; k" := (bind m (fun _ => k))
  (at level 100, k at level 200, only parsing, right associativity)
  : py_scope.
Local Open Scope py_scope.

Definition raise {A} (e : exn) : M A := fun w => (Raise e, w).
Definition continue {A} : M A := fun w => (Continue, w).
Definition sys_exit {A} (msg : string) : M A := raise (SystemExit msg).

Definition emit (e : event) : M unit :=
  fun w => (Ret tt, set_trace (fun t => t ++ [e]) w).
Definition write (s : string) : M unit := emit (Write (Text s)).

(** A call whose answer the environment supplies. *)
Definition call {A} (e : event) (a : answer A) : M A :=
  emit e ;;
  match a with
  | Ok v => ret v
  | Err what => raise (Exception what)
  end.

(** [try: body except Exception as e: handler]. A [continue] inside the
    body leaves the try statement without entering the handler. *)
Definition try_except (body : M unit) (handler : exn -> M unit) : M unit :=
  fun w =>
    match body w with
    | (Raise e, w') =>
        if is_Exception e then handler e w' else (Raise e, w')
    | r => r
    end.

(** [for x in xs: body x]. *)
Fixpoint for_each {X} (body : X -> M unit) (xs : list X) : M unit :=
  match xs with
  | [] => ret tt
  | x :: xs' =>
      fun w =>
        match body x w with
        | (Ret _, w') | (Continue, w') => for_each body xs' w'
        | (Raise e, w') => (Raise e, w')
        end
  end.

(** ** Strings *)

(** [needle in s]. *)
Fixpoint contains (needle s : string) : bool :=
  String.prefix needle s ||
  match s with
  | EmptyString => false
  | String _ s' => contains needle s'
  end.

(** [s[:-n]] for [n > 0]. *)
Definition drop_last (n : nat) (s : string) : string :=
  String.substring 0 (String.length s - n)%nat s.

Definition startswith (s p : string) : bool := String.prefix p s.
Definition endswith (s p : string) : bool :=
  String.prefix (String.rev p) (String.rev s).

(** [os.path.join] on a POSIX system. *)
Definition join2 (path b : string) : string :=
  if startswith b "/" then b
  else if (String.eqb path "" || endswith path "/")%bool then path +:+ b
  else path +:+ "/" +:+ b.
Definition path_join (a : string) (p : list string) : string :=
  fold_left join2 p a.

(** ** Rationals as floats *)

Definition Qltb (a b : Q) : bool := negb (Qle_bool b a).
Definition Qgtb (a b : Q) : bool := Qltb b a.

(** ** Inputs of [main] *)

Record datetime : Type := Datetime {
  year : Z;
  instant : Z
}.

Record config : Type := Config {
  flood_start_date : datetime;
  flood_end_date : datetime;
  ref_start_date : option datetime;
  ref_end_date : option datetime;
  threshold_clouds_flood : Q;
  threshold_clouds_ref : Q;
  threshold_invalids_flood : Q;
  threshold_invalids_ref : Q;
  bucket_uri : string;
  grid_name_filter : option string
}.

(** A row of [aois_data]: a grid patch. The geometry is kept as its
    well-known text. *)
Record aoi : Type := Aoi {
  patch_name : string;
  geometry : string
}.

(** A row of [aois_images]: one image overlapping one grid patch. *)
Record scene : Type := Scene {
  gee_id : string;
  collection_name : string;
  s2cloudless : bool;
  utcdatetime : Z;
  solardatetime : Z;
  solarday : string;
  localdatetime : Z;
  satellite : string;
  mode : string;
  img_patch_name : string
}.

(** The key of [groupby(["patch_name", "solarday", "satellite", "mode"])]. *)
Definition key : Type := string * string * string * string.

Definition key_of (s : scene) : key :=
  (img_patch_name s, solarday s, satellite s, mode s).

(** What a started export will do: see [task]. *)
Record fate : Type := Fate {
  f_active : nat -> bool;
  f_state : string
}.

(** The collaborators of the script. A call made inside iteration [i] of
    the image loop is answered as a function of [i] and of its
    argument; the answer of [istaskrunning], which reads the task list
    of the platform, may also depend on the descriptions of the jobs
    that the run has started so far.
    - [istaskrunning]: [ee_download.istaskrunning(desc)].
    - [overlap]: the ratio of areas [valid_percentage].
    - [get_info]: the cloud band, the pixel counts and [getInfo()].
    - [start_export]: [Export.image.toCloudStorage(..)] and
      [task.start()].
    - [datetime_mean]: the [mean()] of a column of timestamps.
    - [download_permanent_water]:
      [ee_download.download_permanent_water(..)].
    - [images_by_query_grid]: the two catalogue queries, their
      concatenation, the spatial join and its sort, as a function of the
      flood period, the reference period and the patches.
    Building lazy Earth Engine objects, reading centroids and converting
    coordinate systems are taken not to raise. The database answers
    every query. *)
Record platform : Type := Platform {
  istaskrunning : nat -> list string -> string -> answer bool;
  overlap : nat -> string -> answer Q;
  get_info : nat -> string -> answer info;
  start_export : nat -> string -> answer fate;
  datetime_mean : list Z -> Z;
  download_permanent_water : aoi -> answer (option task);
  images_by_query_grid :
    Z * Z -> option (Z * Z) -> list aoi -> list scene
}.

(** ** The ledger *)

(** [INSERT .. ON CONFLICT (image_id) DO UPDATE SET cloud_probability,
    valids, status, data_path]. *)
Definition upsert (image_id : string) (new : download_row)
    (t : gmap string download_row) : gmap string download_row :=
  match t !! image_id with
  | None => <[image_id := new]> t
  | Some old =>
      <[image_id :=
          Row (r_patch_name old) (r_satellite old) (r_date old)
              (r_datetime old) (r_solarday old) (r_solardatetime old)
              (r_cloud_probability new) (r_valids new)
              (r_status new) (r_data_path new)]> t
  end.

(** [UPDATE image_downloads SET status = .. WHERE image_id = ..]. *)
Definition update_status (status : Z) (image_id : string)
    (t : gmap string download_row) : gmap string download_row :=
  alter (fun r =>
    Row (r_patch_name r) (r_satellite r) (r_date r) (r_datetime r)
        (r_solarday r) (r_solardatetime r) (r_cloud_probability r)
        (r_valids r) status (r_data_path r)) image_id t.

(** [SELECT .. FROM image_downloads WHERE image_id = ..], then
    [img_row.iloc[0]] when a row came back. *)
Definition run_select (image_id : string) : M (option download_row) :=
  emit (Select image_id) ;;
  fun w => (Ret (db w !! image_id), w).

Definition run_update (status : Z) (image_id : string) : M unit :=
  emit (Update status image_id) ;;
  fun w => (Ret tt, set_db (update_status status image_id) w).

Definition do_update_download (desc : string)
    (name constellation solar_day : option string)
    (utcdatetime_save solardatetime_save : option Z)
    (cloud_probability valids : option Q)
    (status : Z) (data_path : option string) : M unit :=
  let data :=
    Row name constellation solar_day utcdatetime_save solar_day
        solardatetime_save cloud_probability valids status data_path in
  emit (Upsert desc data) ;;
  fun w => (Ret tt, set_db (upsert desc data) w).

Definition tasks_append (t : task) : M unit :=
  fun w => (Ret tt, set_tasks (fun l => l ++ [t]) w).

Definition len_tasks : M nat := fun w => (Ret (length (tasks w)), w).

Definition get_tasks : M (list task) := fun w => (Ret (tasks w), w).

(** ** The quality gate (main, "Apply filters for cloud cover and swath
    overlap") *)

Definition thresholds (cfg : config) (mode : string) : Q * Q :=
  if String.eqb mode "ref"
  then ((1 - threshold_invalids_ref cfg)%Q, threshold_clouds_ref cfg)
  else ((1 - threshold_invalids_flood cfg)%Q, threshold_clouds_flood cfg).

Definition apply_filters (cfg : config) (mode : string) (info_ee : info)
    : M bool :=
  let download := true in
  write "Checking against latest thresholds:" ;;
  let '(thresh_valid, thresh_cloud) := thresholds cfg mode in
  emit (Write (ValidPixels (valids info_ee) thresh_valid)) ;;
  download <-
    (if Qltb (valids info_ee) thresh_valid
     then write "TOO LOW" ;; ret false
     else write "OK" ;; ret download) ;;
  emit (Write (CloudPixels (cloud_probability info_ee / 100)%Q
                 thresh_cloud)) ;;
  if Qgtb (cloud_probability info_ee / 100)%Q thresh_cloud
  then write "TOO HIGH" ;; ret false
  else write "OK" ;; ret download.

(** ** The image loop of [main] *)

Definition rel_grid_path : string := "0_DEV/1_Staging/GRID".

Definition constellation_of (satellite : string) : string :=
  if startswith satellite "S2" then "S2" else "Landsat".

Definition desc_of (name constellation solar_day : string) : string :=
  name +:+ "_" +:+ constellation +:+ "_" +:+ solar_day.

(** One iteration of [for _i, ((name, solar_day, satellite, mode),
    images_day_sat) in enumerate(aois_grp)]. *)
Definition process_group (cfg : config) (env : platform)
    (num_groups : nat) (ig : nat * (key * list scene)) : M unit :=
  let '(i, ((name, solar_day, satellite, mode), images_day_sat)) := ig in
  emit (Write (Processing (i + 1) num_groups name satellite solar_day
                 mode)) ;;
  try_except
    (let constellation := constellation_of satellite in
     let fileNamePrefix :=
       path_join rel_grid_path [name; constellation; solar_day] in
     write fileNamePrefix ;;
     let desc := desc_of name constellation solar_day in
     (* Advance to next image if download task is already running *)
     started <- get_tasks ;;
     running <-
       call (IsTaskRunning desc)
         (istaskrunning env i (t_description <$> started) desc) ;;
     (if running : bool
      then write ("download task already running '" +:+ desc +:+ "'.") ;;
           continue
      else ret tt) ;;
     (* Query the status of the image in database *)
     write "Querying database for existing image." ;;
     img_row <- run_select desc ;;
     match img_row with
     | Some img_row =>
         write "Image found in database." ;;
         write "Checking download status ... " ;;
         if r_status img_row =? 1
         then write "downloaded." ;;
              write "Skipping existing image." ;;
              continue
         else write "NOT downloaded." ;;
              write "Will process as normal."
     | None => ret tt
     end ;;
     (* Address current grid position and calculate overlap with grid *)
     valid_percentage <- call (Overlap name) (overlap env i name) ;;
     info_ee <-
       (if String.eqb constellation "S2"
        then
          if forallb s2cloudless images_day_sat
          then write "Formatting cloud probability band for S2." ;;
               call (GetInfo desc) (get_info env i desc)
          else ret (Info (-1) valid_percentage)
        else write "Formatting cloud probability band for Landsat." ;;
             call (GetInfo desc) (get_info env i desc)) ;;
     download <- apply_filters cfg mode info_ee ;;
     let utcdatetime_save :=
       datetime_mean env (map utcdatetime images_day_sat) in
     let solardatetime_save :=
       datetime_mean env (map solardatetime images_day_sat) in
     (* Download Execution Block *)
     status <-
       (if download : bool
        then write "SUBMITTING DOWNLOAD TASK TO EARTH ENGINE" ;;
             f <- call (Export desc) (start_export env i desc) ;;
             tasks_append (Task desc (f_active f) (f_state f)) ;;
             ret (-1)
        else write "WILL NOT DOWNLOAD THE IMAGE." ;;
             ret 0) ;;
     num_tasks <- len_tasks ;;
     emit (Write (TaskCount num_tasks)) ;;
     (* Database Update block *)
     let data_path :=
       path_join (bucket_uri cfg)
         [rel_grid_path; name; constellation; solar_day +:+ ".tif"] in
     write "Updating database with image details." ;;
     do_update_download desc (Some name) (Some constellation)
       (Some solar_day) (Some utcdatetime_save) (Some solardatetime_save)
       (Some (cloud_probability info_ee)) (Some (valids info_ee))
       status (Some data_path))
    (fun e =>
       emit (Warn ("Failed " +:+ pretty i +:+ " " +:+ name +:+ " "
                   +:+ solar_day +:+ " " +:+ satellite +:+ " " +:+ mode)
               e)).

(** [enumerate]. *)
Definition enumerate {X} (xs : list X) : list (nat * X) :=
  zip (seq 0 (length xs)) xs.

Definition image_loop (cfg : config) (env : platform)
    (aois_grp : list (key * list scene)) : M unit :=
  for_each (process_group cfg env (length aois_grp)) (enumerate aois_grp).

(** ** The permanent water loop of [main] *)

(** Name resolution. A name that [main] never assigns is resolved at
    module level when it is evaluated; an unbound one raises NameError.
    Of the objects bound there, only strings are told apart. *)
Inductive pyobj : Type :=
| Str (s : string)
| Obj.

(** Parameters of [main] and the targets of its assignments, [for] and
    [except] clauses. *)
Definition main_locals : list string :=
  ["path_aois"; "lga_names"; "flood_start_date"; "flood_end_date";
   "ref_start_date"; "ref_end_date"; "threshold_clouds_flood";
   "threshold_clouds_ref"; "threshold_invalids_flood";
   "threshold_invalids_ref"; "collection_placeholder"; "bucket_uri";
   "path_env_file"; "only_one_previous"; "channel_configuration";
   "force_s2cloudless"; "grid_name_filter"; "do_download_ref";
   "today_date"; "flood_duration"; "period_flood_start";
   "period_flood_end"; "_duration"; "period_ref_start"; "period_ref_end";
   "rel_grid_path"; "bucket_grid_path"; "bucket_name"; "success";
   "db_conn"; "fs_pathaois"; "aois_data"; "lga_names_lst"; "query";
   "data"; "grid_table"; "aois_data_orig_shape"; "num_patches";
   "area_of_interest"; "ee_collection_placeholder";
   "images_available_gee_flood"; "num_flood_images";
   "images_available_gee_ref"; "num_ref_images"; "images_available_gee";
   "total_images"; "aois_images"; "num_images"; "aois_indexed"; "tasks";
   "aois_grp"; "num_groups"; "_i"; "name"; "solar_day"; "satellite";
   "mode"; "images_day_sat"; "constellation"; "fileNamePrefix"; "desc";
   "do_download"; "img_row"; "polygon_grid"; "polygon_images_sat";
   "valid_percentage"; "polygon_grid_ee"; "image_ids"; "image_id";
   "image"; "images"; "channels_down"; "id_lst"; "COLLECTION"; "clouds";
   "count_fun"; "info_ee"; "download"; "thresh_valid"; "thresh_cloud";
   "utcdatetime_save"; "solardatetime_save"; "status"; "lon"; "lat";
   "crs"; "scale"; "task"; "num_tasks"; "data_path"; "e"; "aoi_geom";
   "folder_dest_permament"; "task_permanent"; "tasks_fname";
   "tasks_dump"; "f"].

(** Names bound at module level when [main] runs: those every module
    has, the imports, the four functions and the variables of the
    [__main__] block. The builtins, searched last, are left out: none
    of them is called [patch_name]. *)
Definition module_globals : list (string * pyobj) :=
  map (fun x => (x, Obj))
    ["__doc__"; "__package__"; "__loader__"; "__spec__";
     "__annotations__"; "__builtins__"; "__file__"; "__cached__";
     "os"; "sys"; "ee_download"; "utils";
     "get_channel_configuration_bands"; "ee_query"; "query_utils";
     "timedelta"; "datetime"; "timezone"; "Union"; "List"; "Tuple";
     "Dict"; "gpd"; "mapping"; "pd"; "warnings"; "traceback"; "time";
     "json"; "ZoneInfo"; "ee"; "uuid"; "np"; "tq"; "load_dotenv"; "DB";
     "monitor_tasks"; "fix_landsat_gee_id"; "do_update_download"; "main";
     "argparse"; "ap"; "req"; "args"; "_start"; "_end";
     "flood_start_date"; "flood_end_date"; "ref_start_date";
     "ref_end_date"]
  ++ [("__name__", Str "__main__");
      ("desc_str", Str "Query and download Sentinel-2 and Landsat-8/9 images");
      ("epilog_str", Str "Copyright Trillium Technologies 2022 - 2023.")].

Definition load_global (x : string) : M pyobj :=
  match list_find (fun b => b.1 = x) module_globals with
  | Some (_, (_, v)) => ret v
  | None => raise (NameError x)
  end.

(** One iteration of [for aoi_geom in aois_data.itertuples()]. *)
Definition process_patch (cfg : config) (env : platform) (aoi_geom : aoi)
    : M unit :=
  write ("Processing Patch: '" +:+ patch_name aoi_geom +:+ "'") ;;
  try_except
    (let image_id := patch_name aoi_geom +:+ "_PERMANENTWATERJRC" in
     write "Querying database for existing image." ;;
     img_row <- run_select image_id ;;
     status <-
       match img_row with
       | Some img_row =>
           write "Image found in database." ;;
           write "Checking download status in DB ... " ;;
           ret (r_status img_row)
       | None => ret 0
       end ;;
     (if status =? 1
      then write "Image already downloaded." ;; continue
      else write "Image NOT already downloaded.") ;;
     let bucket_grid_path := path_join (bucket_uri cfg) [rel_grid_path] in
     let folder_dest_permament :=
       path_join bucket_grid_path
         [patch_name aoi_geom; "PERMANENTWATERJRC"] in
     (* Command the latest permanent water layer be downloaded. *)
     write "Commanding download of permanent water layer." ;;
     task_permanent <-
       call (DownloadPermanentWater
               (patch_name aoi_geom +:+ "_PERMANENTWATERJRC"))
            (download_permanent_water env aoi_geom) ;;
     (* Append download tasks to the task list and update in the
        database *)
     match task_permanent with
     | Some task_permanent =>
         write "SUBMITTED DOWNLOAD TASK TO GOOGLE EARTH ENGINE" ;;
         tasks_append task_permanent ;;
         (* the arguments of the call, left to right; [patch_name] is
            not a local of main *)
         name <- load_global "patch_name" ;;
         match name with
         | Str name =>
             do_update_download image_id (Some name)
               (Some "PERMANENTWATERJRC")
               (Some (pretty (year (flood_start_date cfg)) +:+ "-01-01"))
               None None None None (-1) (Some folder_dest_permament)
         | Obj => raise (Exception "can't adapt type")
         end
     | None => ret tt
     end)
    (fun e =>
       emit (Warn ("Failed PERMANENT WATER JRC " +:+ patch_name aoi_geom)
               e)).

Definition water_loop (cfg : config) (env : platform)
    (aois_data : list aoi) : M unit :=
  for_each (process_patch cfg env) aois_data.

(** ** [monitor_tasks] *)

(** The body of [for _i, (t, task) in enumerate(list(active_tasks))],
    with the two variables it updates. *)
Definition poll_task (p : nat) (acc : list (string * task) * nat)
    (x : string * task) : M (list (string * task) * nat) :=
  let '(active_tasks_new, task_error_count) := acc in
  let '(t, task) := x in
  emit (Active (t_description task)) ;;
  if t_active task p
  then ret (active_tasks_new ++ [(t, task)], task_error_count)
  else
    let desc := t_description task in
    (* Need to strip date from the image_id for permanent water layer *)
    let desc :=
      if contains "PERMANENTWATERJRC" desc then drop_last 5 desc
      else desc in
    if negb (String.eqb (t_state task) "COMPLETED")
    then emit (Write (TaskError t (t_state task))) ;;
         run_update 0 desc ;;
         ret (active_tasks_new, S task_error_count)
    else write ("[INFO] task " +:+ t +:+ " completed.") ;;
         run_update 1 desc ;;
         ret (active_tasks_new, task_error_count).

Fixpoint for_fold {X S} (body : S -> X -> M S) (s : S) (xs : list X)
    : M S :=
  match xs with
  | [] => ret s
  | x :: xs' => s' <- body s x ;; for_fold body s' xs'
  end.

(** [while len(active_tasks) > 0]. The loop has no bound of its own: the
    model runs at most [fuel] passes and answers [None] when they do not
    suffice. [p] counts the passes made so far. *)
Fixpoint monitor_loop (fuel : nat) (interval_s : Z) (p : nat)
    (active_tasks : list (string * task)) (task_error_count : nat)
    : M (option nat) :=
  match active_tasks with
  | [] => ret (Some task_error_count)
  | _ :: _ =>
      match fuel with
      | O => ret None
      | S fuel' =>
          write ("[INFO] " +:+ pretty (length active_tasks)
                 +:+ " active tasks running") ;;
          write "[INFO] Polling status of actve tasks ..." ;;
          r <- for_fold (poll_task p) ([], task_error_count)
                 active_tasks ;;
          emit (Sleep interval_s) ;;
          monitor_loop fuel' interval_s (S p) r.1 r.2
      end
  end.

Definition monitor_tasks (fuel : nat) (tasks : list task)
    (interval_s : Z) : M (option unit) :=
  write ("[INFO] Total number of tasks is " +:+ pretty (length tasks)
         +:+ ".") ;;
  let active_tasks := map (fun task => (t_description task, task)) tasks in
  r <- monitor_loop fuel interval_s 0 active_tasks 0 ;;
  match r with
  | Some task_error_count =>
      emit (Write (Summary task_error_count)) ;;
      ret (Some tt)
  | None => ret None
  end.

(** ** The date ranges of [main] *)

Definition later (a b : datetime) : bool := instant a >? instant b.

(** "Set the flood start and end times" and "Set the reference start and
    end times". Answers the flood period and, when both reference dates
    are given, the reference period. *)
Definition set_periods (cfg : config) (today_date : datetime)
    : M ((datetime * datetime) * option (datetime * datetime)) :=
  let flood_start_date := flood_start_date cfg in
  flood_end_date <-
    (if later (flood_end_date cfg) today_date
     then write "[WARN] Flood end date set to future time. Setting today." ;;
          ret today_date
     else ret (flood_end_date cfg)) ;;
  (if later flood_start_date today_date
   then sys_exit "[ERR] Flood start date set to future time!"
   else ret tt) ;;
  write ("[INFO] Flooding duration: "
         +:+ pretty (instant flood_end_date - instant flood_start_date)
         +:+ ".") ;;
  match ref_start_date cfg, ref_end_date cfg with
  | Some ref_start_date, Some ref_end_date =>
      ref_end_date <-
        (if later ref_end_date today_date
         then write "[WARN] Ref end date set to future time. Setting today." ;;
              ret today_date
         else ret ref_end_date) ;;
      (if later ref_start_date today_date
       then sys_exit "[ERR] Ref start date set to future time!"
       else ret tt) ;;
      write ("[INFO] Reference duration: "
             +:+ pretty (instant ref_end_date - instant ref_start_date)
             +:+ ".") ;;
      ret ((flood_start_date, flood_end_date),
           Some (ref_start_date, ref_end_date))
  | _, _ => ret ((flood_start_date, flood_end_date), None)
  end.

(** ** The grid patches of [main] *)

(** [aois_data.drop_duplicates(subset=['patch_name'], keep='first',
    ignore_index=True)]: a row is dropped when its name was met in an
    earlier row. *)
Fixpoint drop_duplicates_seen (seen : list string) (rows : list aoi)
    : list aoi :=
  match rows with
  | [] => []
  | r :: rows' =>
      if bool_decide (patch_name r ∈ seen)
      then drop_duplicates_seen seen rows'
      else r :: drop_duplicates_seen (patch_name r :: seen) rows'
  end.

Definition drop_duplicates (rows : list aoi) : list aoi :=
  drop_duplicates_seen [] rows.

(** "Check for duplicates", "Check the number of patches affected" and
    "Filter by grid patch name, if provided". *)
Definition select_patches (cfg : config) (aois_data : list aoi)
    : M (list aoi) :=
  let aois_data_orig_shape := length aois_data in
  let aois_data := drop_duplicates aois_data in
  write ("[INFO] Found "
         +:+ pretty (aois_data_orig_shape - length aois_data)%nat
         +:+ " grid duplicates (removed).") ;;
  let num_patches := length aois_data in
  write ("[INFO] Found " +:+ pretty num_patches
         +:+ " grid patches to download.") ;;
  (if (num_patches =? 0)%nat
   then sys_exit "[ERR] No valid grid patches selected - exiting."
   else ret tt) ;;
  match grid_name_filter cfg with
  | Some grid_name_filter =>
      if negb (String.eqb grid_name_filter "")
      then
        write ("[INFO] Selecting only grid patch '" +:+ grid_name_filter
               +:+ "'.") ;;
        let aois_data :=
          filter (fun r => patch_name r = grid_name_filter) aois_data in
        if negb (0 <? length aois_data)%nat
        then sys_exit ("[ERR] " +:+ grid_name_filter
                       +:+ " not found in selection.")
        else ret aois_data
      else ret aois_data
  | None => ret aois_data
  end.

(** ** Grouping the images *)

Definition lex (c1 c2 : comparison) : comparison :=
  match c1 with
  | Eq => c2
  | _ => c1
  end.

(** Tuples of strings compare component by component. *)
Definition key_compare (a b : key) : comparison :=
  let '(a1, a2, a3, a4) := a in
  let '(b1, b2, b3, b4) := b in
  lex (String.compare a1 b1)
    (lex (String.compare a2 b2)
       (lex (String.compare a3 b3) (String.compare a4 b4))).

Definition key_le (a b : key) : Prop := key_compare a b ≠ Gt.

#[local] Instance key_le_dec (a b : key) : Decision (key_le a b).
Proof. unfold key_le. apply _. Defined.

(** [aois_images.groupby(["patch_name", "solarday", "satellite",
    "mode"])]: one group per distinct key, the groups in increasing key
    order, the rows of a group in the order of the table. *)
Definition groupby (rows : list scene) : list (key * list scene) :=
  let keys := merge_sort key_le (remove_dups (map key_of rows)) in
  map (fun k => (k, filter (fun s => key_of s = k) rows)) keys.

(** ** [main] *)

(** The run from the date checks on. Loading the environment file,
    opening and closing the database connection, reading the patches
    from a file or from the table of local government areas, and
    writing the JSON list of tasks are left out; [aois_data] is the
    table of patches that was read. *)

Definition main (cfg : config) (env : platform) (today_date : datetime)
    (aois_data : list aoi) (fuel : nat) : M (option unit) :=
  periods <- set_periods cfg today_date ;;
  let '((period_flood_start, period_flood_end), period_ref) := periods in
  aois_data <- select_patches cfg aois_data ;;
  let aois_images :=
    images_by_query_grid env
      (instant period_flood_start, instant period_flood_end)
      (prod_map instant instant <$> period_ref) aois_data in
  image_loop cfg env (groupby aois_images) ;;
  water_loop cfg env aois_data ;;
  tasks <- get_tasks ;;
  monitor_tasks fuel tasks 10.

(** ** Deduplication in the words of the design document *)

(** "Keeping the first occurrence": the row at position [i] is the
    first of its name when no row before it carries that name. *)
Definition first_of_name (rows : list aoi) (ir : nat * aoi) : Prop :=
  patch_name ir.2 ∉ patch_name <$> take ir.1 rows.

#[local] Instance first_of_name_dec rows ir : Decision (first_of_name rows ir).
Proof. unfold first_of_name. apply _. Defined.

Definition keep_first (rows : list aoi) : list aoi :=
  (filter (first_of_name rows) (enumerate rows)).*2.

(** The rows that repeat the name of an earlier row, with their
    positions. *)
Definition later_occurrences (rows : list aoi) : list (nat * aoi) :=
  filter (fun ir => ~ first_of_name rows ir) (enumerate rows).

(** ** Reading the trace of the monitor *)

(** The ledger write that [monitor_tasks] makes for a job that has
    ended: its status and its key. *)
Definition final_update (t : task) : Z * string :=
  (if String.eqb (t_state t) "COMPLETED" then 1 else 0,
   if contains "PERMANENTWATERJRC" (t_description t)
   then drop_last 5 (t_description t)
   else t_description t).

Definition updates (l : list event) : list (Z * string) :=
  omap (fun e => match e with Update s d => Some (s, d) | _ => None end) l.

Definition sleeps (l : list event) : list Z :=
  omap (fun e => match e with Sleep s => Some s | _ => None end) l.

Definition polls (l : list event) : list string :=
  omap (fun e => match e with Active d => Some d | _ => None end) l.

Definition apply_updates (us : list (Z * string))
    (t : gmap string download_row) : gmap string download_row :=
  foldl (fun t u => update_status u.1 u.2 t) t us.

(** Two handles: an export that completes at the third poll and a
    water layer job that has failed by the second. *)
Definition sample_tasks : list task :=
  [Task "GRID01_S2_2022-03-01" (fun p => (p <? 2)%nat) "COMPLETED";
   Task "GRID01_PERMANENTWATERJRC_2022" (fun p => (p <? 1)%nat) "FAILED"].

(** ** Reading traces *)

(** The verdict of the quality gate and the lines it writes, as
    functions of the figures. *)
Definition gate (cfg : config) (mode : string) (info_ee : info) : bool :=
  negb (Qltb (valids info_ee) (thresholds cfg mode).1) &&
  negb (Qgtb (cloud_probability info_ee / 100)%Q (thresholds cfg mode).2).

Definition gate_lines (cfg : config) (mode : string) (info_ee : info)
    : list event :=
  [Write (Text "Checking against latest thresholds:");
   Write (ValidPixels (valids info_ee) (thresholds cfg mode).1);
   Write (Text (if Qltb (valids info_ee) (thresholds cfg mode).1
                then "TOO LOW" else "OK"));
   Write (CloudPixels (cloud_probability info_ee / 100)%Q
            (thresholds cfg mode).2);
   Write (Text (if Qgtb (cloud_probability info_ee / 100)%Q
                     (thresholds cfg mode).2
                then "TOO HIGH" else "OK"))].

Definition is_processing (e : event) : bool :=
  match e with
  | Write (Processing _ _ _ _ _ _) => true
  | _ => false
  end.

(** The calls that compute the metrics of a unit or submit its job. *)
Definition metric_or_submission (e : event) : bool :=
  match e with
  | Overlap _ | GetInfo _ | Export _ => true
  | _ => false
  end.


Definition is_ledger_write (e : event) : bool :=
  match e with
  | Upsert _ _ | Update _ _ => true
  | _ => false
  end.

(** The descriptions under which a trace starts exports. *)
Definition exports (l : list event) : list string :=
  flat_map (fun e => match e with Export d => [d] | _ => [] end) l.

(** The description under which an iteration of the image loop names
    its job. *)
Definition unit_desc (ig : nat * (key * list scene)) : string :=
  let '(_, ((name, solar_day, satellite, _), _)) := ig in
  desc_of name (constellation_of satellite) solar_day.

(** A platform that reports as running every job that this run has
    started. *)
Definition coherent (env : platform) : Prop :=
  forall i started desc,
    desc ∈ started -> istaskrunning env i started desc = Ok true.

(** The title line of an iteration of the image loop. *)
Definition title (n : nat) (ig : nat * (key * list scene)) : event :=
  let '(i, ((name, solar_day, satellite, mode), _)) := ig in
  Write (Processing (i + 1) n name satellite solar_day mode).

(** The computation of the metrics of a unit raises [what]: the overlap
    does, or [getInfo] does where it is called (every unit but a
    Sentinel-2 one that lacks a cloud product). *)
Definition metrics_raise (env : platform) (i : nat)
    (name solar_day satellite : string) (images : list scene)
    (what : string) : Prop :=
  overlap env i name = Err what \/
  (exists valid_percentage,
     overlap env i name = Ok valid_percentage /\
     String.eqb (constellation_of satellite) "S2" &&
       negb (forallb s2cloudless images) = false /\
     get_info env i (desc_of name (constellation_of satellite) solar_day)
       = Err what).

(** The last [n] elements. *)
Definition last_n {A} (n : nat) (l : list A) : list A :=
  drop (length l - n) l.

(** ** Sample data *)

(** The command-line defaults, and an empty ledger. *)
Definition default_cfg : config :=
  Config (Datetime 2022 1645056000) (Datetime 2022 1646784000) None None
    0.95 0.1 0.7 0.1 "gs://floodmapper-demo" (Some "").

Definition empty_state : state := State ∅ [] [].

Definition sample_scene (name day sat tag : string) : scene :=
  Scene "20220301T000000_20220301T000000_T56JMQ" "COPERNICUS/S2" true
    1646092800 1646128800 day 1646128800 sat tag name.

(** A second image of the same pass over GRID01, from the adjacent
    tile. *)
Definition adjacent_scene : scene :=
  Scene "20220301T000000_20220301T000000_T56JNQ" "COPERNICUS/S2" true
    1646092814 1646128814 "2022-03-01" 1646128814 "S2A" "flood" "GRID01".

Definition sample_group : key * list scene :=
  (("GRID01", "2022-03-01", "S2A", "flood"),
   [sample_scene "GRID01" "2022-03-01" "S2A" "flood"]).

(** A platform on which the jobs of this run, and no others, are
    running, every unit is fully covered and 20% cloudy, and every job
    completes after two polls. *)
Definition sample_env : platform :=
  Platform
    (fun _ started desc => Ok (bool_decide (desc ∈ started)))
    (fun _ _ => Ok 1%Q)
    (fun _ _ => Ok (Info 20 0.95))
    (fun _ _ => Ok (Fate (fun p => (p <? 2)%nat) "COMPLETED"))
    (fun l => nth 0 l 0)
    (fun a =>
       Ok (Some (Task (patch_name a +:+ "_PERMANENTWATERJRC_2022")
                   (fun p => (p <? 1)%nat) "COMPLETED")))
    (fun _ _ aois =>
       map (fun a => sample_scene (patch_name a) "2022-03-01" "S2A" "flood")
         aois).

(** The same platform with a failing metric computation. *)
Definition failing_env : platform :=
  Platform (istaskrunning sample_env) (overlap sample_env)
    (fun _ _ => Err "EEException: Computation timed out.")
    (start_export sample_env) (datetime_mean sample_env)
    (download_permanent_water sample_env)
    (images_by_query_grid sample_env).

Definition done_row : download_row :=
  Row (Some "GRID01") (Some "S2") (Some "2022-03-01") (Some 1646092800)
    (Some "2022-03-01") (Some 1646128800) (Some 20%Q) (Some 0.95%Q) 1
    (Some "gs://floodmapper-demo/0_DEV/1_Staging/GRID/GRID01/S2/2022-03-01.tif").

(** Two units of one patch and day that differ in the satellite of the
    constellation only: they share a description. *)
Definition twin_groups : list (key * list scene) :=
  [(("GRID01", "2022-03-01", "S2A", "flood"),
    [sample_scene "GRID01" "2022-03-01" "S2A" "flood"]);
   (("GRID01", "2022-03-01", "S2B", "flood"),
    [sample_scene "GRID01" "2022-03-01" "S2B" "flood"])].

(** The sample platform, except that it never reports a job as
    running. *)
Definition forgetful_env : platform :=
  Platform (fun _ _ _ => Ok false) (overlap sample_env)
    (get_info sample_env) (start_export sample_env)
    (datetime_mean sample_env) (download_permanent_water sample_env)
    (images_by_query_grid sample_env).

Definition done_state : state :=
  State {[ "GRID01_S2_2022-03-01" := done_row ]} [] [].

(** ** Reading the trace of the image loop *)

(** The computation of the metrics of a unit answers [info_ee]: the
    overlap is computed, and [info_ee] is what [getInfo] answers, or the
    sentinel -1 with the overlap for a Sentinel-2 unit that lacks a
    cloud product. *)
Definition metrics_are (env : platform) (i : nat)
    (name solar_day satellite : string) (images : list scene)
    (info_ee : info) : Prop :=
  exists valid_percentage,
    overlap env i name = Ok valid_percentage /\
    if String.eqb (constellation_of satellite) "S2" &&
       negb (forallb s2cloudless images)
    then info_ee = Info (-1) valid_percentage
    else get_info env i (desc_of name (constellation_of satellite)
                           solar_day) = Ok info_ee.


(** The keys and statuses of the upserts of a trace. *)
Definition upserts (l : list event) : list (string * Z) :=
  omap (fun e => match e with
                 | Upsert image_id r => Some (image_id, r_status r)
                 | _ => None
                 end) l.


(** ** The fatal errors of [main] *)


(** ** [fix_landsat_gee_id] *)

(** [s[n:]]. *)
Fixpoint skip (n : nat) (s : string) : string :=
  match n, s with
  | O, _ => s
  | S n', String _ s' => skip n' s'
  | S _, EmptyString => EmptyString
  end.

Definition fix_landsat_gee_id (row : scene) : string :=
  if (startswith (gee_id row) "1_" || startswith (gee_id row) "2_")
     && contains "LC" (gee_id row)
  then skip 2 (gee_id row)
  else gee_id row.

(** ** The command line *)

Record cli_args : Type := CliArgs {
  arg_flood_start_date : string;
  arg_flood_end_date : string;
  arg_ref_start_date : option string;
  arg_ref_end_date : option string;
  arg_threshold_clouds_flood : Q;
  arg_threshold_clouds_ref : Q;
  arg_threshold_invalids_flood : Q;
  arg_threshold_invalids_ref : Q;
  arg_bucket_uri : string;
  arg_grid_name : string
}.

(** [sorted([a, b])] on datetimes. *)
Definition sorted2 (a b : datetime) : datetime * datetime :=
  if instant b <? instant a then (b, a) else (a, b).

(** The truth value of an optional argument. *)
Definition truthy (s : option string) : bool :=
  match s with
  | Some s => negb (String.eqb s "")
  | None => false
  end.

Definition is_None {A} (o : option A) : bool :=
  match o with
  | None => true
  | Some _ => false
  end.

(** [datetime.strptime(s, "%Y-%m-%d").replace(tzinfo=timezone.utc)],
    the parser being given. *)
Definition parse_date (strptime : string -> answer datetime) (s : string)
    : M datetime :=
  match strptime s with
  | Ok d => ret d
  | Err what => raise (Exception what)
  end.

(** The [__main__] block, from the parsed arguments to the arguments of
    [main]. [ap.error] ends the process as [sys.exit] does. *)
Definition parse_args (strptime : string -> answer datetime)
    (args : cli_args) : M config :=
  (* Parse the flood date range *)
  _start <- parse_date strptime (arg_flood_start_date args) ;;
  _end <- parse_date strptime (arg_flood_end_date args) ;;
  let '(flood_start_date, flood_end_date) := sorted2 _start _end in
  (* Parse the unflooded date range *)
  (if negb (is_None (arg_ref_start_date args))
        && is_None (arg_ref_end_date args)
      || is_None (arg_ref_start_date args)
        && negb (is_None (arg_ref_end_date args))
   then sys_exit "Both reference start and end date must be provided."
   else ret tt) ;;
  ref <-
    (if truthy (arg_ref_start_date args) && truthy (arg_ref_end_date args)
     then
       _start <- parse_date strptime
                   (default "" (arg_ref_start_date args)) ;;
       _end <- parse_date strptime (default "" (arg_ref_end_date args)) ;;
       let '(ref_start_date, ref_end_date) := sorted2 _start _end in
       ret (Some ref_start_date, Some ref_end_date)
     else ret (None, None)) ;;
  ret (Config flood_start_date flood_end_date ref.1 ref.2
         (arg_threshold_clouds_flood args) (arg_threshold_clouds_ref args)
         (arg_threshold_invalids_flood args)
         (arg_threshold_invalids_ref args)
         (arg_bucket_uri args) (Some (arg_grid_name args))).

(** A parser that knows four dates. *)
Definition sample_strptime (s : string) : answer datetime :=
  if String.eqb s "2022-02-17" then Ok (Datetime 2022 1645056000)
  else if String.eqb s "2022-03-09" then Ok (Datetime 2022 1646784000)
  else if String.eqb s "2021-06-01" then Ok (Datetime 2021 1622505600)
  else if String.eqb s "2021-09-01" then Ok (Datetime 2021 1630454400)
  else Err "ValueError: time data does not match format '%Y-%m-%d'".

Definition sample_args : cli_args :=
  CliArgs "2022-03-09" "2022-02-17" (Some "2021-06-01")
    (Some "2021-09-01") 0.95 0.1 0.7 0.1 "gs://floodmapper-demo" "".

(** * Properties *)

(** ** Running monadic code *)

Lemma state_eq w w' :
  db w = db w' -> tasks w = tasks w' -> trace w = trace w' -> w = w'.
Proof. destruct w, w'. simpl. by intros -> -> ->. Qed.

(** Unfolds the monad and runs the code as far as it is determined. *)
Ltac run :=
  unfold try_except, bind, call, write, emit, ret, raise, continue,
    sys_exit, run_select, run_update, do_update_download, tasks_append,
    len_tasks, get_tasks;
  simpl.

(** [a <= b] on the rationals, as the script tests it. *)
Lemma Qltb_false a b : Qltb a b = false <-> (b <= a)%Q.
Proof.
  unfold Qltb. rewrite negb_false_iff. apply Qle_bool_iff.
Qed.


(** ** The quality gate *)

Lemma apply_filters_result cfg mode info_ee w :
  (apply_filters cfg mode info_ee w).1 =
  Ret (negb (Qltb (valids info_ee) (thresholds cfg mode).1) &&
       negb (Qgtb (cloud_probability info_ee / 100)%Q
               (thresholds cfg mode).2)).
Proof.
  unfold apply_filters. destruct (thresholds cfg mode) as [tv tc].
  simpl. run.
  by destruct (Qltb _ tv), (Qgtb _ tc).
Qed.


(** C8. With the thresholds and the tag fixed, a unit that passes the
    gate still passes it when its valid fraction is raised and its
    cloud fraction lowered. *)
Theorem apply_filters_monotone (cfg : config) (mode : string)
    (info1 info2 : info) (w1 w2 : state) :
  (valids info1 <= valids info2)%Q ->
  (cloud_probability info2 / 100 <= cloud_probability info1 / 100)%Q ->
  (apply_filters cfg mode info1 w1).1 = Ret true ->
  (apply_filters cfg mode info2 w2).1 = Ret true.
Proof.
  intros Hv Hc. rewrite !apply_filters_result.
  intros [= H1]. f_equal.
  apply andb_true_iff in H1 as [Hv1 Hc1].
  apply negb_true_iff in Hv1, Hc1. unfold Qgtb in *.
  apply Qltb_false in Hv1, Hc1.
  apply andb_true_iff. rewrite !negb_true_iff. unfold Qgtb.
  split; apply Qltb_false; by eapply Qle_trans.
Qed.

Lemma apply_filters_monotone_witness :
  (apply_filters default_cfg "flood" (Info 10 0.9) empty_state).1
  = Ret true.
Proof.
  apply (apply_filters_monotone default_cfg "flood" (Info 50 0.5)
           (Info 10 0.9) empty_state empty_state).
  - by vm_compute.
  - by vm_compute.
  - reflexivity.
Defined.

(** ** One iteration of the image loop *)

Lemma apply_filters_run cfg mode info_ee w :
  apply_filters cfg mode info_ee w =
  (Ret (gate cfg mode info_ee),
   set_trace (fun t => t ++ gate_lines cfg mode info_ee) w).
Proof.
  unfold apply_filters, gate, gate_lines.
  destruct (thresholds cfg mode) as [tv tc]. simpl.
  destruct (Qltb _ tv), (Qgtb _ tc); run; f_equal; apply state_eq; simpl;
    rewrite <- ?app_assoc; reflexivity.
Qed.

(** Splits on every answer the iteration depends on. *)
Ltac oracle_cases :=
  repeat match goal with
  | |- context [match istaskrunning ?e ?i ?l ?d with _ => _ end] =>
      destruct (istaskrunning e i l d) as [[]|] eqn:?; simpl
  | |- context [match overlap ?e ?i ?d with _ => _ end] =>
      destruct (overlap e i d) as [|] eqn:?; simpl
  | |- context [match get_info ?e ?i ?d with _ => _ end] =>
      destruct (get_info e i d) as [|] eqn:?; simpl
  | |- context [match start_export ?e ?i ?d with _ => _ end] =>
      destruct (start_export e i d) as [|] eqn:?; simpl
  | |- context [match db ?w !! ?d with _ => _ end] =>
      destruct (db w !! d) as [|] eqn:?; simpl
  | |- context [if r_status ?r =? 1 then _ else _] =>
      destruct (r_status r =? 1) eqn:?; simpl
  | |- context [if String.eqb (constellation_of ?s) "S2" then _ else _] =>
      destruct (String.eqb (constellation_of s) "S2") eqn:?; simpl
  | |- context [if forallb s2cloudless ?l then _ else _] =>
      destruct (forallb s2cloudless l) eqn:?; simpl
  | |- context [apply_filters ?c ?m ?i ?w] =>
      rewrite (apply_filters_run c m i w); simpl
  | |- context [if gate ?c ?m ?i then _ else _] =>
      destruct (gate c m i) eqn:?; simpl
  end.



(** Closes [trace w' = trace w ++ ?added] once [w'] is known. *)
Ltac trace_eq := simpl; rewrite <- ?app_assoc; simpl; reflexivity.

(** Whatever the collaborators answer, an iteration ends normally or by
    [continue], writes its title line once, first, starts at most one
    export, under its description, and appends at most one task, which
    it does only when no job of that description is reported active. *)
Lemma process_group_outcome cfg env n i name solar_day satellite tag
    images w :
  let desc := desc_of name (constellation_of satellite) solar_day in
  exists out w' rest,
    process_group cfg env n
      (i, ((name, solar_day, satellite, tag), images)) w = (out, w') /\
    (forall e, out <> Raise e) /\
    trace w' =
      trace w ++
      Write (Processing (i + 1) n name satellite solar_day tag) :: rest /\
    forallb (fun e => negb (is_processing e)) rest = true /\
    (exports rest = [] \/ exports rest = [desc]) /\
    (tasks w' = tasks w \/
     istaskrunning env i (t_description <$> tasks w) desc = Ok false /\
     exists f, tasks w' = tasks w ++ [Task desc (f_active f) (f_state f)]).
Proof.
  intros desc. unfold process_group. fold desc. run. oracle_cases.
  all: eexists _, _, _; (split; [reflexivity|]); (split; [done|]);
    (split; [trace_eq|]); (split; [reflexivity|]);
    (split; [first [by left | by right]|]);
    first [by left | right; split; [done | by eexists]].
Qed.

(** C2. A unit whose ledger row has status 1 is left alone: whatever
    the other columns of the row hold and whatever the platform answers,
    the iteration makes no overlap computation, no [getInfo] call and no
    export call, writes nothing to the ledger and adds no task. When no
    job of that description is reported active, it ends by [continue]
    right after the [SELECT]. *)
Theorem skip_downloaded (cfg : config) (env : platform) (n i : nat)
    (name solar_day satellite tag : string) (images : list scene)
    (row : download_row) (w : state) :
  let desc := desc_of name (constellation_of satellite) solar_day in
  db w !! desc = Some row ->
  r_status row = 1 ->
  exists out w' added,
    process_group cfg env n
      (i, ((name, solar_day, satellite, tag), images)) w = (out, w') /\
    db w' = db w /\ tasks w' = tasks w /\
    trace w' = trace w ++ added /\
    forallb (fun e => negb (metric_or_submission e)) added = true /\
    forallb (fun e => negb (is_ledger_write e)) added = true /\
    (istaskrunning env i (t_description <$> tasks w) desc = Ok false ->
     out = Continue /\
     last_n 5 added =
       [Select desc;
        Write (Text "Image found in database.");
        Write (Text "Checking download status ... ");
        Write (Text "downloaded.");
        Write (Text "Skipping existing image.")]).
Proof.
  intros desc Hrow Hst. unfold process_group. fold desc. run.
  destruct (istaskrunning env i (t_description <$> tasks w) desc)
    as [[]|] eqn:E; simpl;
    rewrite ?Hrow; simpl; rewrite ?Hst; simpl.
  all: eexists _, _, _; (split; [reflexivity|]);
    (split; [done|]); (split; [done|]); (split; [trace_eq|]);
    (split; [reflexivity|]); (split; [reflexivity|]); by intros.
Qed.

Lemma skip_downloaded_witness :
  exists out w' added,
    process_group default_cfg sample_env 1 (0%nat, sample_group) done_state
      = (out, w') /\
    db w' = db done_state /\ tasks w' = tasks done_state /\
    trace w' = trace done_state ++ added /\
    forallb (fun e => negb (metric_or_submission e)) added = true /\
    forallb (fun e => negb (is_ledger_write e)) added = true /\
    (istaskrunning sample_env 0 (t_description <$> tasks done_state)
       "GRID01_S2_2022-03-01" = Ok false ->
     out = Continue /\
     last_n 5 added =
       [Select "GRID01_S2_2022-03-01";
        Write (Text "Image found in database.");
        Write (Text "Checking download status ... ");
        Write (Text "downloaded.");
        Write (Text "Skipping existing image.")]).
Proof.
  apply (skip_downloaded default_cfg sample_env 1 0 "GRID01" "2022-03-01"
           "S2A" "flood" _ done_row done_state).
  - reflexivity.
  - reflexivity.
Defined.


(** ** The image loop as a whole *)

Lemma exports_app l1 l2 : exports (l1 ++ l2) = exports l1 ++ exports l2.
Proof. apply flat_map_app. Qed.

Lemma filter_not_processing rest :
  forallb (fun e => negb (is_processing e)) rest = true ->
  List.filter is_processing rest = [].
Proof.
  induction rest as [|e rest IH]; [done|].
  simpl. intros [He Hr]%andb_true_iff.
  apply negb_true_iff in He. rewrite He. by apply IH.
Qed.

(** The image loop ends normally whatever happens inside its
    iterations. It has written the title of every group, in order; the
    exports it has started are, in order, under descriptions of some of
    its groups, one export per group at most; and on a coherent
    platform it leaves the descriptions of the tasks distinct when it
    found them so. *)
Lemma image_loop_run cfg env n (igs : list (nat * (key * list scene))) w :
  exists w' added,
    for_each (process_group cfg env n) igs w = (Ret tt, w') /\
    trace w' = trace w ++ added /\
    List.filter is_processing added = map (title n) igs /\
    exports added `sublist_of` unit_desc <$> igs /\
    (coherent env ->
     NoDup (t_description <$> tasks w) ->
     NoDup (t_description <$> tasks w')).
Proof.
  revert w. induction igs as [|[i [[[[name day] sat] tag] images]] igs IH];
    intros w.
  - exists w, []. simpl. rewrite app_nil_r. by repeat split.
  - destruct (process_group_outcome cfg env n i name day sat tag images w)
      as (out & w1 & rest & Hrun & Hout & Htr & Hrest & Hexp & Htasks).
    destruct (IH w1) as (w' & added & Hloop & Htr' & Hvis & Hsub & Hnd).
    exists w',
      (Write (Processing (i + 1) n name sat day tag) :: rest ++ added).
    cbn [for_each]. unfold key in *. rewrite Hrun.
    split; [by destruct out as [[]| |e]; [| |destruct (Hout e)]|].
    split; [by rewrite Htr', Htr, <- app_assoc|].
    split.
    { cbn [List.filter is_processing map title]. f_equal.
      by rewrite List.filter_app, (filter_not_processing rest), Hvis. }
    split.
    { change (Write (Processing (i + 1) n name sat day tag)
                :: rest ++ added)
        with ([Write (Processing (i + 1) n name sat day tag)]
                ++ rest ++ added).
      rewrite !exports_app. cbn [exports flat_map app fmap list_fmap
                                 unit_desc].
      destruct Hexp as [-> | ->]; simpl.
      - by apply sublist_cons.
      - by apply sublist_skip. }
    intros Hco Hw. apply (Hnd Hco).
    destruct Htasks as [-> | (Hoff & f & ->)]; [done|].
    rewrite fmap_app. simpl. apply NoDup_app. split; [done|].
    split; [|apply NoDup_singleton].
    intros d Hd ->%list_elem_of_singleton.
    rewrite (Hco i _ _ Hd) in Hoff. discriminate.
Qed.




(** Units that differ only in the satellite of a constellation, or only
    in the tag, share a description. The platform that reports the first
    job as running makes the second unit a skip; one that does not lets
    both jobs start under the one description. *)
Lemma twin_groups_exports :
  exports (trace (image_loop default_cfg sample_env twin_groups
                    empty_state).2)
  = ["GRID01_S2_2022-03-01"] /\
  exports (trace (image_loop default_cfg forgetful_env twin_groups
                    empty_state).2)
  = ["GRID01_S2_2022-03-01"; "GRID01_S2_2022-03-01"].
Proof. by vm_compute. Qed.

(** C4 does not hold as the design document words it: when [getInfo]
    raises for the only unit of a run that starts from an empty ledger,
    the run ends with no row for that unit, hence none with status 0. *)
Lemma metric_failure_not_recorded :
  metrics_raise failing_env 0 "GRID01" "2022-03-01" "S2A" sample_group.2
    "EEException: Computation timed out." /\
  ~ (exists row,
       db (image_loop default_cfg failing_env [sample_group]
             empty_state).2 !! "GRID01_S2_2022-03-01" = Some row /\
       r_status row = 0).
Proof.
  split.
  - right. exists 1%Q. by repeat split.
  - intros (row & Hrow & _). by vm_compute in Hrow.
Qed.

(** C4, amended. When the computation of a unit's metrics raises, the
    iteration logs the exception and ends normally; it starts no export,
    writes nothing to the ledger (the row of the unit, if any, stays as
    it was) and adds no task. And the image loop as a whole always ends
    normally, having written the title of every unit in order: no
    exception raised inside an iteration leaves it. *)
Theorem metric_failure_isolated (cfg : config) (env : platform) :
  (forall (n i : nat) (name solar_day satellite tag : string)
          (images : list scene) (w : state) (what : string),
     let desc := desc_of name (constellation_of satellite) solar_day in
     istaskrunning env i (t_description <$> tasks w) desc = Ok false ->
     (forall row, db w !! desc = Some row -> r_status row <> 1) ->
     metrics_raise env i name solar_day satellite images what ->
     exists w' added,
       process_group cfg env n
         (i, ((name, solar_day, satellite, tag), images)) w
       = (Ret tt, w') /\
       db w' = db w /\ tasks w' = tasks w /\
       trace w' = trace w ++ added /\
       last added =
         Some (Warn ("Failed " +:+ pretty i +:+ " " +:+ name +:+ " "
                     +:+ solar_day +:+ " " +:+ satellite +:+ " " +:+ tag)
                 (Exception what)) /\
       exports added = [] /\
       forallb (fun e => negb (is_ledger_write e)) added = true) /\
  (forall (aois_grp : list (key * list scene)) (w : state),
     exists w' added,
       image_loop cfg env aois_grp w = (Ret tt, w') /\
       trace w' = trace w ++ added /\
       List.filter is_processing added =
         map (title (length aois_grp)) (enumerate aois_grp)).
Proof.
  split.
  2: { intros aois_grp w.
       destruct (image_loop_run cfg env (length aois_grp)
                   (enumerate aois_grp) w)
         as (w' & added & Hrun & Htr & Hvis & _).
       by exists w', added. }
  intros n i name solar_day satellite tag images w what desc Hrun Hrow Hm.
  unfold process_group. fold desc. run. rewrite Hrun. simpl.
  assert (Hst : match db w !! desc with
                | Some row => (r_status row =? 1) = false
                | None => True
                end).
  { destruct (db w !! desc) as [row|]; [|done].
    apply Z.eqb_neq. by apply Hrow. }
  destruct Hm as [Ho | (vp & Ho & Hb & Hg)]; rewrite Ho; simpl.
  - destruct (db w !! desc) as [row|]; simpl; rewrite ?Hst; simpl.
    all: eexists _, _; (split; [reflexivity|]); (split; [done|]);
      (split; [done|]); (split; [trace_eq|]); by repeat split.
  - fold desc in Hg.
    destruct (String.eqb (constellation_of satellite) "S2"),
      (forallb s2cloudless images); simpl in Hb; try discriminate Hb.
    all: destruct (db w !! desc) as [row|]; simpl; rewrite ?Hst; simpl;
      rewrite Hg; simpl.
    all: eexists _, _; (split; [reflexivity|]); (split; [done|]);
      (split; [done|]); (split; [trace_eq|]); by repeat split.
Qed.

Lemma metric_failure_isolated_witness :
  exists w',
    process_group default_cfg failing_env 1 (0%nat, sample_group)
      empty_state = (Ret tt, w') /\
    db w' = ∅ /\ tasks w' = [].
Proof.
  destruct (proj1 (metric_failure_isolated default_cfg failing_env)
              1%nat 0%nat "GRID01" "2022-03-01" "S2A" "flood"
              sample_group.2 empty_state
              "EEException: Computation timed out.")
    as (w' & added & Hrun & Hdb & Htasks & _).
  - reflexivity.
  - intros row Hrow. by vm_compute in Hrow.
  - right. exists 1%Q. by repeat split.
  - exists w'. by repeat split.
Defined.

(** ** The permanent water loop *)

Lemma patch_name_unbound :
  ("patch_name" ∉ main_locals) /\ ("patch_name" ∉ module_globals.*1).
Proof.
  split; intros H; apply (bool_decide_pack _) in H; by vm_compute in H.
Qed.

(** C10. When the download of the permanent water layer of a patch
    returns a task, the task is appended to the task list and the
    arguments of the ledger update are evaluated next. The second of
    them is the name [patch_name], bound neither in [main] nor at
    module level: NameError is raised before [do_update_download] is
    entered, so nothing is written to the ledger. The handler of the
    iteration logs the error, and the loop goes on with the next
    patch. *)
Theorem water_row_never_written (cfg : config) (env : platform)
    (aoi_geom : aoi) (others : list aoi) (task_permanent : task)
    (w : state) :
  let image_id := patch_name aoi_geom +:+ "_PERMANENTWATERJRC" in
  (forall row, db w !! image_id = Some row -> r_status row <> 1) ->
  download_permanent_water env aoi_geom = Ok (Some task_permanent) ->
  ("patch_name" ∉ main_locals) /\
  ("patch_name" ∉ module_globals.*1) /\
  exists w' added,
    process_patch cfg env aoi_geom w = (Ret tt, w') /\
    db w' = db w /\
    tasks w' = tasks w ++ [task_permanent] /\
    trace w' = trace w ++ added /\
    forallb (fun e => negb (is_ledger_write e)) added = true /\
    last_n 3 added =
      [DownloadPermanentWater image_id;
       Write (Text "SUBMITTED DOWNLOAD TASK TO GOOGLE EARTH ENGINE");
       Warn ("Failed PERMANENT WATER JRC " +:+ patch_name aoi_geom)
         (NameError "patch_name")] /\
    water_loop cfg env (aoi_geom :: others) w
    = water_loop cfg env others w'.
Proof.
  intros image_id Hrow Htask.
  split; [apply patch_name_unbound|]. split; [apply patch_name_unbound|].
  assert (Hst : match db w !! image_id with
                | Some row => (r_status row =? 1) = false
                | None => True
                end).
  { destruct (db w !! image_id) as [row|]; [|done].
    apply Z.eqb_neq. by apply Hrow. }
  assert (Hrun : exists w' added,
    process_patch cfg env aoi_geom w = (Ret tt, w') /\
    db w' = db w /\
    tasks w' = tasks w ++ [task_permanent] /\
    trace w' = trace w ++ added /\
    forallb (fun e => negb (is_ledger_write e)) added = true /\
    last_n 3 added =
      [DownloadPermanentWater image_id;
       Write (Text "SUBMITTED DOWNLOAD TASK TO GOOGLE EARTH ENGINE");
       Warn ("Failed PERMANENT WATER JRC " +:+ patch_name aoi_geom)
         (NameError "patch_name")]).
  { unfold process_patch. fold image_id. run. rewrite Htask. simpl.
    destruct (db w !! image_id) as [row|]; simpl; rewrite ?Hst; simpl.
    all: eexists _, _; (split; [reflexivity|]); (split; [done|]);
      (split; [done|]); (split; [trace_eq|]); by repeat split. }
  destruct Hrun as (w' & added & Hrun & H).
  exists w', added. split; [done|]. repeat (split; [apply H|]).
  unfold water_loop. cbn [for_each]. by rewrite Hrun.
Qed.

Lemma water_row_never_written_witness :
  exists w',
    process_patch default_cfg sample_env (Aoi "GRID01" "POLYGON EMPTY")
      empty_state = (Ret tt, w') /\
    db w' = ∅ /\ length (tasks w') = 1%nat.
Proof.
  destruct (water_row_never_written default_cfg sample_env
              (Aoi "GRID01" "POLYGON EMPTY") []
              (Task "GRID01_PERMANENTWATERJRC_2022"
                 (fun p => (p <? 1)%nat) "COMPLETED") empty_state)
    as (_ & _ & w' & added & Hrun & Hdb & Htasks & _).
  - intros row Hrow. by vm_compute in Hrow.
  - reflexivity.
  - exists w'. rewrite Hrun, Hdb, Htasks. by repeat split.
Defined.

(** ** The date ranges *)

(** C9. For the flood range and, when both its dates are given, for the
    reference range: a start date later than now ends the run by
    [sys.exit]; otherwise the run goes on with the start date as given
    and the end date replaced by now when it is later than now, in
    which case, and only then, the warning of that range is written. *)
Theorem set_periods_spec (cfg : config) (today_date : datetime)
    (w : state) :
  let clamp d := if later d today_date then today_date else d in
  let warning (what : string) d :=
    if later d today_date
    then [Write (Text ("[WARN] " +:+ what
                       +:+ " end date set to future time. Setting today."))]
    else [] in
  let flood_lines :=
    warning "Flood" (flood_end_date cfg) ++
    [Write (Text ("[INFO] Flooding duration: "
                  +:+ pretty (instant (clamp (flood_end_date cfg))
                              - instant (flood_start_date cfg))
                  +:+ "."))] in
  (* the flood range *)
  (later (flood_start_date cfg) today_date = true ->
   exists w',
     set_periods cfg today_date w =
       (Raise (SystemExit "[ERR] Flood start date set to future time!"),
        w')) /\
  (later (flood_start_date cfg) today_date = false ->
   (ref_start_date cfg = None \/ ref_end_date cfg = None) ->
   set_periods cfg today_date w =
     (Ret ((flood_start_date cfg, clamp (flood_end_date cfg)), None),
      set_trace (fun t => t ++ flood_lines) w)) /\
  (* the reference range *)
  (forall ref_start ref_end,
     ref_start_date cfg = Some ref_start ->
     ref_end_date cfg = Some ref_end ->
     (later ref_start today_date = true ->
      exists msg w',
        set_periods cfg today_date w = (Raise (SystemExit msg), w') /\
        (later (flood_start_date cfg) today_date = false ->
         msg = "[ERR] Ref start date set to future time!")) /\
     (later (flood_start_date cfg) today_date = false ->
      later ref_start today_date = false ->
      set_periods cfg today_date w =
        (Ret ((flood_start_date cfg, clamp (flood_end_date cfg)),
              Some (ref_start, clamp ref_end)),
         set_trace (fun t => t ++ flood_lines ++
           warning "Ref" ref_end ++
           [Write (Text ("[INFO] Reference duration: "
                         +:+ pretty (instant (clamp ref_end)
                                     - instant ref_start)
                         +:+ "."))]) w))).
Proof.
  intros clamp warning flood_lines.
  subst clamp warning flood_lines. unfold set_periods.
  repeat split.
  - intros Hs. run. rewrite Hs.
    destruct (later (flood_end_date cfg) today_date); simpl; eauto.
  - intros Hs Href. run. rewrite Hs.
    destruct (later (flood_end_date cfg) today_date); simpl;
      destruct Href as [-> | ->]; simpl;
      try destruct (ref_start_date cfg); simpl;
      f_equal; apply state_eq; trace_eq.
  - intros Hr. run. rewrite H, H0.
    destruct (later (flood_start_date cfg) today_date),
      (later (flood_end_date cfg) today_date),
      (later ref_end today_date); simpl; rewrite ?Hr; simpl;
      eexists _, _; split; try reflexivity; by intros.
  - intros Hs Hr. run. rewrite H, H0, Hs.
    destruct (later (flood_end_date cfg) today_date),
      (later ref_end today_date); simpl; rewrite ?Hr; simpl;
      f_equal; apply state_eq; trace_eq.
Qed.

Lemma set_periods_spec_witness :
  (set_periods default_cfg (Datetime 2022 1646000000) empty_state).1
  = Ret ((flood_start_date default_cfg, Datetime 2022 1646000000), None)
  /\
  exists w',
    set_periods default_cfg (Datetime 2022 1640000000) empty_state
    = (Raise (SystemExit "[ERR] Flood start date set to future time!"),
       w').
Proof.
  split.
  - rewrite (proj1 (proj2 (set_periods_spec default_cfg
                             (Datetime 2022 1646000000) empty_state)));
      [reflexivity | reflexivity | by left].
  - apply (proj1 (set_periods_spec default_cfg
                    (Datetime 2022 1640000000) empty_state)).
    reflexivity.
Defined.

(** ** Deduplication of the grid patches *)

Lemma drop_duplicates_seen_spec rows : forall pre seen,
  (forall x, x ∈ seen <-> x ∈ patch_name <$> pre) ->
  drop_duplicates_seen seen rows =
  (filter (first_of_name (pre ++ rows))
     (zip (seq (length pre) (length rows)) rows)).*2.
Proof.
  induction rows as [|r rows IH]; intros pre seen Hseen; [done|].
  cbn [drop_duplicates_seen length seq zip zip_with].
  assert (Hpre : take (length pre) (pre ++ r :: rows) = pre)
    by (by rewrite take_app_length).
  assert (Hnext : drop_duplicates_seen
                    (if bool_decide (patch_name r ∈ seen) then seen
                     else patch_name r :: seen) rows
                  = (filter (first_of_name (pre ++ r :: rows))
                       (zip (seq (S (length pre)) (length rows)) rows)).*2).
  { rewrite (IH (pre ++ [r])).
    - by rewrite <- app_assoc, length_app, Nat.add_1_r.
    - intros x. rewrite fmap_app, elem_of_app. simpl.
      rewrite list_elem_of_singleton, <- Hseen.
      case_bool_decide as Hr; [|rewrite elem_of_cons; tauto].
      split; [tauto | by intros [Hx | ->]]. }
  case_bool_decide as Hin.
  - rewrite filter_cons_False; [done|].
    unfold first_of_name. simpl. rewrite Hpre.
    intros Hnot. apply Hnot. by apply Hseen.
  - rewrite filter_cons_True.
    + simpl. by f_equal.
    + unfold first_of_name. simpl. rewrite Hpre. by rewrite <- Hseen.
Qed.

Lemma keep_first_names rows :
  forall x, x ∈ patch_name <$> rows <-> x ∈ patch_name <$> keep_first rows.
Proof.
  intros x. unfold keep_first, enumerate. split.
  - (* the first row named [x] is kept *)
    intros Hx. apply list_elem_of_fmap in Hx as (r & -> & Hr).
    apply list_elem_of_lookup in Hr as [i Hi].
    revert r Hi. induction (lt_wf i) as [i _ IH]. intros r Hi.
    destruct (decide (patch_name r ∈ patch_name <$> take i rows))
      as [Hearlier|Hfirst].
    + apply list_elem_of_fmap in Hearlier as (r' & Heq & Hr').
      apply list_elem_of_lookup in Hr' as [j Hj].
      pose proof (lookup_lt_Some _ _ _ Hj) as Hlt.
      rewrite length_take in Hlt.
      rewrite lookup_take_lt in Hj by lia.
      rewrite Heq. apply (IH j); [lia | done].
    + apply list_elem_of_fmap. exists r. split; [done|].
      apply list_elem_of_fmap. exists (i, r). split; [done|].
      apply list_elem_of_filter. split; [done|].
      apply list_elem_of_lookup. exists i.
      apply lookup_zip_with_Some. exists i, r. split; [done|].
      split; [|done]. apply lookup_seq. split; [done|].
      by apply lookup_lt_Some in Hi.
  - intros Hx. apply list_elem_of_fmap in Hx as (r & -> & Hr).
    apply list_elem_of_fmap in Hr as ([i r'] & -> & Hr).
    apply list_elem_of_filter in Hr as [_ Hr].
    apply list_elem_of_fmap. exists r'. split; [done|].
    apply list_elem_of_lookup in Hr as [k Hk].
    apply lookup_zip_with_Some in Hk as (a & b & [= <- <-] & _ & Hb).
    by eapply list_elem_of_lookup_2.
Qed.

Lemma drop_duplicates_seen_NoDup rows : forall seen,
  NoDup (patch_name <$> drop_duplicates_seen seen rows) /\
  (forall x, x ∈ patch_name <$> drop_duplicates_seen seen rows ->
             x ∉ seen).
Proof.
  induction rows as [|r rows IH]; intros seen.
  - split; [constructor | by intros x Hx%elem_of_nil].
  - simpl. case_bool_decide as Hin.
    + apply IH.
    + destruct (IH (patch_name r :: seen)) as [Hnd Hfresh].
      split.
      * simpl. constructor; [|done].
        intros Hr. apply Hfresh in Hr. apply Hr. by left.
      * intros x. simpl. rewrite elem_of_cons. intros [->|Hx]; [done|].
        apply Hfresh in Hx. intros Hs. apply Hx. by right.
Qed.

(** C6. Dropping the duplicates keeps the rows that are the first of
    their name and no other, in their order; so every name of the table
    is kept exactly once, and the table shrinks by the number of rows
    that repeat an earlier name: five rows of which two repeat an
    earlier name leave three. *)
Theorem drop_duplicates_keeps_first (rows : list aoi) :
  drop_duplicates rows = keep_first rows /\
  NoDup (patch_name <$> drop_duplicates rows) /\
  (forall name,
     name ∈ patch_name <$> rows <->
     name ∈ patch_name <$> drop_duplicates rows) /\
  (length (drop_duplicates rows) + length (later_occurrences rows)
   = length rows)%nat /\
  (length rows = 5%nat -> length (later_occurrences rows) = 2%nat ->
   length (drop_duplicates rows) = 3%nat).
Proof.
  assert (Heq : drop_duplicates rows = keep_first rows).
  { unfold drop_duplicates, keep_first, enumerate.
    by rewrite (drop_duplicates_seen_spec rows [] []). }
  assert (Hlen : (length (drop_duplicates rows)
                  + length (later_occurrences rows) = length rows)%nat).
  { rewrite Heq. unfold keep_first, later_occurrences.
    rewrite length_fmap, <- length_app.
    rewrite (Permutation_length
               (filter_app_complement (first_of_name rows)
                  (enumerate rows))).
    unfold enumerate. rewrite length_zip_with, length_seq. lia. }
  split; [done|]. split; [apply drop_duplicates_seen_NoDup|].
  split; [|split; [done | lia]].
  intros name. rewrite Heq. apply keep_first_names.
Qed.

Lemma drop_duplicates_keeps_first_witness :
  length (drop_duplicates
            [Aoi "GRID01" "a"; Aoi "GRID02" "b"; Aoi "GRID01" "c";
             Aoi "GRID03" "d"; Aoi "GRID02" "e"]) = 3%nat.
Proof.
  apply (drop_duplicates_keeps_first
           [Aoi "GRID01" "a"; Aoi "GRID02" "b"; Aoi "GRID01" "c";
            Aoi "GRID03" "d"; Aoi "GRID02" "e"]).
  - reflexivity.
  - reflexivity.
Defined.

(** ** Grouping *)

Lemma filter_disjoint_app {A} (P Q : A -> Prop)
    `{!forall x, Decision (P x)} `{!forall x, Decision (Q x)} (l : list A) :
  (forall x, P x -> Q x -> False) ->
  filter P l ++ filter Q l ≡ₚ filter (fun x => P x \/ Q x) l.
Proof.
  intros Hdisj. induction l as [|x l IH]; [done|].
  rewrite !filter_cons.
  destruct (decide (P x)) as [Hp|Hp], (decide (Q x)) as [Hq|Hq].
  - by destruct (Hdisj x).
  - rewrite decide_True by tauto. simpl. by rewrite IH.
  - rewrite decide_True by tauto.
    rewrite <- Permutation_middle. by rewrite IH.
  - rewrite decide_False by tauto. done.
Qed.

Lemma filter_all {A} (P : A -> Prop) `{!forall x, Decision (P x)}
    (l : list A) :
  Forall P l -> filter P l = l.
Proof.
  induction 1 as [|x l Hx Hl IH]; [done|].
  rewrite filter_cons_True by done. by f_equal.
Qed.

Lemma concat_groups (rows : list scene) (keys : list key) :
  NoDup keys ->
  concat (map (fun k => filter (fun s => key_of s = k) rows) keys)
  ≡ₚ filter (fun s => key_of s ∈ keys) rows.
Proof.
  induction 1 as [|k keys Hk Hnd IH]; simpl.
  - induction rows as [|s rows IHr]; [done|].
    rewrite filter_cons_False; [done | apply not_elem_of_nil].
  - rewrite IH.
    rewrite (filter_disjoint_app (fun s => key_of s = k)
               (fun s => key_of s ∈ keys)).
    + apply reflexive_eq. apply list_filter_iff.
      intros s. rewrite elem_of_cons. tauto.
    + intros s <- Hin. by apply Hk.
Qed.

Lemma groupby_keys rows :
  (groupby rows).*1 = merge_sort key_le (remove_dups (map key_of rows)).
Proof.
  unfold groupby. rewrite <- list_fmap_compose.
  apply list_fmap_id.
Qed.

Lemma groupby_elem rows k g :
  (k, g) ∈ groupby rows <->
  k ∈ map key_of rows /\ g = filter (fun s => key_of s = k) rows.
Proof.
  unfold groupby. rewrite list_elem_of_fmap.
  setoid_rewrite merge_sort_Permutation.
  setoid_rewrite elem_of_remove_dups.
  split.
  - intros (k' & [= -> ->] & Hk). done.
  - intros [Hk ->]. by exists k.
Qed.

(** C7. The groups of [groupby] partition the table by the key (patch,
    day, satellite, tag): there is one group per key that occurs, it
    holds exactly the rows of that key, and together the groups hold
    every row once. Hence two rows of one key are never in two groups,
    and the rows of one group all belong to one patch. *)
Theorem groupby_partitions (rows : list scene) :
  let groups := groupby rows in
  NoDup groups.*1 /\
  (forall k g, (k, g) ∈ groups ->
     g <> [] /\ g = filter (fun s => key_of s = k) rows) /\
  (forall s, s ∈ rows -> exists g, (key_of s, g) ∈ groups /\ s ∈ g) /\
  concat groups.*2 ≡ₚ rows /\
  (forall i j k1 g1 k2 g2 s1 s2,
     groups !! i = Some (k1, g1) -> groups !! j = Some (k2, g2) ->
     s1 ∈ g1 -> s2 ∈ g2 -> key_of s1 = key_of s2 -> i = j) /\
  (forall k g s1 s2,
     (k, g) ∈ groups -> s1 ∈ g -> s2 ∈ g ->
     img_patch_name s1 = img_patch_name s2).
Proof.
  intros groups.
  assert (Hnd : NoDup groups.*1).
  { unfold groups. rewrite groupby_keys, merge_sort_Permutation.
    apply NoDup_remove_dups. }
  assert (Hkey : forall k g s, (k, g) ∈ groups -> s ∈ g -> key_of s = k).
  { intros k g s [_ ->]%groupby_elem Hs.
    by apply list_elem_of_filter in Hs as [-> _]. }
  split; [done|]. split; [|split; [|split; [|split]]].
  - intros k g Hg. pose proof Hg as [Hk ->]%groupby_elem.
    split; [|done].
    apply list_elem_of_fmap in Hk as (s & -> & Hs).
    intros Hnil.
    assert (Hin : s ∈ filter (fun s0 => key_of s0 = key_of s) rows)
      by (by apply list_elem_of_filter).
    rewrite Hnil in Hin. by apply elem_of_nil in Hin.
  - intros s Hs. exists (filter (fun s0 => key_of s0 = key_of s) rows).
    split.
    + apply groupby_elem. split; [|done].
      apply list_elem_of_fmap. by exists s.
    + by apply list_elem_of_filter.
  - assert (Hsnd : groups.*2 =
                   map (fun k => filter (fun s => key_of s = k) rows)
                     groups.*1).
    { unfold groups, groupby. rewrite <- !list_fmap_compose.
      by apply list_fmap_ext. }
    rewrite Hsnd, concat_groups by done.
    apply reflexive_eq, filter_all, Forall_forall.
    intros s Hs. unfold groups.
    rewrite groupby_keys, merge_sort_Permutation, elem_of_remove_dups.
    apply list_elem_of_fmap. by exists s.
  - intros i j k1 g1 k2 g2 s1 s2 Hi Hj Hs1 Hs2 Heq.
    apply (NoDup_lookup _ i j k1 Hnd).
    + by rewrite list_lookup_fmap, Hi.
    + rewrite list_lookup_fmap, Hj. simpl. f_equal.
      rewrite <- (Hkey k1 g1 s1), <- (Hkey k2 g2 s2); try done.
      all: by eapply list_elem_of_lookup_2.
  - intros k g s1 s2 Hg Hs1 Hs2.
    pose proof (Hkey k g s1 Hg Hs1) as H1.
    pose proof (Hkey k g s2 Hg Hs2) as H2.
    rewrite <- H2 in H1. unfold key_of in H1. by injection H1.
Qed.

Lemma groupby_partitions_witness :
  img_patch_name (sample_scene "GRID01" "2022-03-01" "S2A" "flood")
  = img_patch_name adjacent_scene.
Proof.
  apply (proj2 (proj2 (proj2 (proj2 (proj2
           (groupby_partitions
              [sample_scene "GRID02" "2022-03-01" "S2A" "flood";
               sample_scene "GRID01" "2022-03-01" "S2A" "flood";
               adjacent_scene])))))
           ("GRID01", "2022-03-01", "S2A", "flood")
           [sample_scene "GRID01" "2022-03-01" "S2A" "flood";
            adjacent_scene]).
  - apply list_elem_of_In. vm_compute. left. reflexivity.
  - by left.
  - right. by left.
Defined.

(** ** The monitor *)

Lemma updates_app l1 l2 : updates (l1 ++ l2) = updates l1 ++ updates l2.
Proof. apply omap_app. Qed.

Lemma sleeps_app l1 l2 : sleeps (l1 ++ l2) = sleeps l1 ++ sleeps l2.
Proof. apply omap_app. Qed.

Lemma apply_updates_app us vs t :
  apply_updates (us ++ vs) t = apply_updates vs (apply_updates us t).
Proof. unfold apply_updates. by rewrite foldl_app. Qed.

(** One pass over the active handles. *)
Lemma poll_pass p xs : forall acc cnt w,
  exists cnt' w' added,
    for_fold (poll_task p) (acc, cnt) xs w =
      (Ret (acc ++ filter (fun x => t_active x.2 p) xs, cnt'), w') /\
    trace w' = trace w ++ added /\
    tasks w' = tasks w /\
    db w' = apply_updates (updates added) (db w) /\
    updates added =
      final_update <$> (filter (fun x => ~ t_active x.2 p) xs).*2 /\
    sleeps added = [] /\
    polls added = (fun x => t_description x.2) <$> xs.
Proof.
  induction xs as [|[t task] xs IH]; intros acc cnt w.
  - exists cnt, w, []. simpl. rewrite !app_nil_r. by repeat split.
  - cbn [for_fold]. unfold bind at 1. unfold poll_task at 1. run.
    destruct (t_active task p) eqn:Ha.
    + destruct (IH (acc ++ [(t, task)]) cnt
                  (set_trace (fun tr => tr ++ [Active (t_description task)])
                     w))
        as (cnt' & w' & added & Hrun & Htr & Hts & Hdb & Hup & Hsl & Hpo).
      exists cnt', w', (Active (t_description task) :: added).
      rewrite Hrun. rewrite filter_cons_True by (simpl; by rewrite Ha).
      rewrite filter_cons_False by (simpl; rewrite Ha; auto).
      rewrite <- app_assoc. simpl in *.
      rewrite Htr, <- app_assoc. simpl. rewrite Hpo. by repeat split.
    + destruct (String.eqb (t_state task) "COMPLETED") eqn:Hst; simpl.
      all: match goal with
           | |- context [for_fold _ (?a, ?c) _ ?w0] =>
               destruct (IH a c w0)
                 as (cnt' & w' & added & Hrun & Htr & Hts & Hdb & Hup
                     & Hsl & Hpo)
           end.
      all: eexists cnt', w', (_ :: _ :: _ :: added).
      all: rewrite Hrun;
        rewrite filter_cons_False by (simpl; rewrite Ha; auto);
        rewrite filter_cons_True by (simpl; rewrite Ha; auto);
        simpl in *; rewrite Htr, <- !app_assoc; simpl.
      all: unfold final_update; rewrite Hst, Hdb, Hup, Hpo.
      all: by repeat split.
Qed.

(** One turn of the [while] loop. *)
Lemma monitor_loop_step fuel interval_s p x active cnt w :
  monitor_loop (S fuel) interval_s p (x :: active) cnt w =
  match
    for_fold (poll_task p) ([], cnt) (x :: active)
      (set_trace
         (fun t => t ++
            [Write (Text "[INFO] Polling status of actve tasks ...")])
         (set_trace
            (fun t => t ++
               [Write (Text ("[INFO] " +:+ pretty (length (x :: active))
                             +:+ " active tasks running"))]) w))
  with
  | (Ret r, w1) =>
      monitor_loop fuel interval_s (S p) r.1 r.2
        (set_trace (fun t => t ++ [Sleep interval_s]) w1)
  | (Continue, w1) => (Continue, w1)
  | (Raise e, w1) => (Raise e, w1)
  end.
Proof. reflexivity. Qed.

(** The loop ends when every active handle turns inactive at one of the
    next [k] passes, which [k] passes of fuel then cover. *)
Lemma monitor_loop_terminates interval_s k : forall p active cnt w,
  (forall x, x ∈ active ->
     exists q, (p <= q < p + k)%nat /\ t_active x.2 q = false) ->
  exists cnt' w' added passes,
    monitor_loop k interval_s p active cnt w = (Ret (Some cnt'), w') /\
    trace w' = trace w ++ added /\
    tasks w' = tasks w /\
    db w' = apply_updates (updates added) (db w) /\
    updates added ≡ₚ final_update <$> active.*2 /\
    sleeps added = replicate passes interval_s /\
    (forall x, x ∈ active ->
       exists q, (p <= q < p + passes)%nat /\ t_active x.2 q = false) /\
    (forall n, (n < passes)%nat ->
       exists x, x ∈ active /\
         forall q, (p <= q < p + n)%nat -> t_active x.2 q = true).
Proof.
  induction k as [|k IH]; intros p active cnt w Hfin.
  - destruct active as [|x active].
    + exists cnt, w, [], 0%nat. simpl. rewrite app_nil_r.
      split_and!; try done; try (intros n Hn; lia);
        intros y Hy; by apply elem_of_nil in Hy.
    + destruct (Hfin x) as (q & Hq & _); [by left | exfalso; lia].
  - destruct active as [|x active].
    + exists cnt, w, [], 0%nat. simpl. rewrite app_nil_r.
      split_and!; try done; try (intros n Hn; lia);
        intros y Hy; by apply elem_of_nil in Hy.
    + rewrite monitor_loop_step. set (l := x :: active) in *.
      match goal with
      | |- context [for_fold _ _ l ?w0] =>
          destruct (poll_pass p l [] cnt w0)
            as (cnt1 & w1 & added1 & Hrun1 & Htr1 & Hts1 & Hdb1 & Hup1
                & Hsl1 & _)
      end.
      rewrite Hrun1. simpl.
      match goal with
      | |- context [monitor_loop k _ _ ?l' ?c ?w0] =>
          destruct (IH (S p) l' c w0)
            as (cnt' & w' & added & passes & Hrun & Htr & Hts & Hdb
                & Hup & Hsl & Hdone & Hbusy)
      end.
      { intros y Hy. apply list_elem_of_filter in Hy as [Hact Hy].
        destruct (Hfin y Hy) as (q & Hq & Hoff).
        exists q. split; [|done].
        destruct (decide (q = p)) as [->|]; [|lia].
        rewrite Hoff in Hact. done. }
      rewrite Hrun.
      exists cnt', w',
        ([Write (Text ("[INFO] " +:+ pretty (length l)
                       +:+ " active tasks running"));
          Write (Text "[INFO] Polling status of actve tasks ...")]
         ++ added1 ++ [Sleep interval_s] ++ added), (S passes).
      split; [reflexivity|]. split.
      { rewrite Htr. cbn [trace set_trace]. rewrite Htr1.
        cbn [trace set_trace]. by rewrite <- !app_assoc. }
      split; [by rewrite Hts; cbn [tasks set_trace]; rewrite Hts1|].
      rewrite !updates_app, !sleeps_app, Hsl1, Hsl. cbn [updates sleeps omap].
      rewrite ?app_nil_l, ?app_nil_r.
      split.
      { rewrite Hdb, apply_updates_app. cbn [db set_trace].
        by rewrite Hdb1. }
      split.
      { trans (final_update <$> l.*2); [|done].
        rewrite Hup, Hup1, <- fmap_app, <- fmap_app.
        do 2 apply fmap_Permutation.
        rewrite Permutation_app_comm. apply filter_app_complement. }
      split; [done|]. split.
      * intros y Hy. destruct (t_active y.2 p) eqn:Hact.
        -- destruct (Hdone y) as (q & Hq & Hoff).
           { apply list_elem_of_filter. split; [by rewrite Hact | done]. }
           exists q. split; [lia | done].
        -- exists p. split; [lia | done].
      * intros [|n] Hn.
        -- exists x. split; [by left | intros; lia].
        -- destruct (Hbusy n) as (y & Hy & Hact); [lia|].
           apply list_elem_of_filter in Hy as [Hp Hy].
           exists y. split; [done|]. intros q Hq.
           destruct (decide (q = p)) as [->|].
           ++ by destruct (t_active y.2 p).
           ++ apply Hact. lia.
Qed.

(** A handle that stays active keeps the loop going, whatever the
    fuel. *)
Lemma monitor_loop_diverges interval_s fuel : forall p active cnt w,
  (exists x, x ∈ active /\ forall q, t_active x.2 q = true) ->
  exists w', monitor_loop fuel interval_s p active cnt w = (Ret None, w').
Proof.
  induction fuel as [|fuel IH]; intros p active cnt w (x & Hx & Hon).
  - destruct active as [|y active]; [by apply elem_of_nil in Hx|].
    by exists w.
  - destruct active as [|y active]; [by apply elem_of_nil in Hx|].
    rewrite monitor_loop_step.
    match goal with
    | |- context [for_fold _ _ ?l ?w0] =>
        destruct (poll_pass p l [] cnt w0) as (cnt1 & w1 & ? & Hrun1 & _)
    end.
    rewrite Hrun1. apply IH. exists x. split; [|done].
    simpl. apply list_elem_of_filter. split; [by rewrite Hon | done].
Qed.

Lemma inactive_bound (ts : list task) :
  (forall t, t ∈ ts -> exists p, t_active t p = false) ->
  exists k, forall t, t ∈ ts ->
    exists q, (q < k)%nat /\ t_active t q = false.
Proof.
  induction ts as [|t ts IH]; intros Hfin.
  - exists 0%nat. intros t Ht. by apply elem_of_nil in Ht.
  - destruct IH as [k Hk]; [intros t' Ht'; apply Hfin; by right|].
    destruct (Hfin t) as [p Hp]; [by left|].
    exists (max k (S p)). intros t' [->|Ht']%elem_of_cons.
    + exists p. split; [lia | done].
    + destruct (Hk t' Ht') as (q & Hq & Hoff).
      exists q. split; [lia | done].
Qed.

(** C5. A pass of the monitor asks every outstanding handle once
    whether it is active, keeps those that are, and makes one ledger
    update for each of the others: status 1 when its state is
    COMPLETED and 0 otherwise, under its description, less its last
    five characters when the description contains PERMANENTWATERJRC.
    When every handle turns inactive at some pass, the loop ends: by
    then each handle has had exactly one update, the ledger is the
    result of these updates, and the loop has slept the interval once
    per pass; the number of passes is the least one after which no
    handle is active. When a handle stays active for ever, the loop
    does not end. *)
Theorem monitor_tasks_spec (tasks0 : list task) (interval_s : Z)
    (w : state) :
  (forall p active cnt w0,
     exists cnt' w1 added,
       for_fold (poll_task p) ([], cnt) active w0 =
         (Ret (filter (fun x => t_active x.2 p) active, cnt'), w1) /\
       trace w1 = trace w0 ++ added /\
       polls added = (fun x => t_description x.2) <$> active /\
       updates added =
         final_update <$> (filter (fun x => ~ t_active x.2 p) active).*2)
  /\
  ((forall t, t ∈ tasks0 -> exists p, t_active t p = false) ->
   exists fuel w' added passes,
     monitor_tasks fuel tasks0 interval_s w = (Ret (Some tt), w') /\
     trace w' = trace w ++ added /\
     updates added ≡ₚ final_update <$> tasks0 /\
     db w' = apply_updates (updates added) (db w) /\
     sleeps added = replicate passes interval_s /\
     (forall t, t ∈ tasks0 ->
        exists q, (q < passes)%nat /\ t_active t q = false) /\
     (forall n, (n < passes)%nat ->
        exists t, t ∈ tasks0 /\
          forall q, (q < n)%nat -> t_active t q = true))
  /\
  ((exists t, t ∈ tasks0 /\ forall p, t_active t p = true) ->
   forall fuel, exists w',
     monitor_tasks fuel tasks0 interval_s w = (Ret None, w')).
Proof.
  set (active0 := map (fun task => (t_description task, task)) tasks0).
  assert (Hsnd : active0.*2 = tasks0).
  { unfold active0. rewrite <- list_fmap_compose. apply list_fmap_id. }
  assert (Hmem : forall x, x ∈ active0 -> x.2 ∈ tasks0).
  { intros x Hx. rewrite <- Hsnd. apply list_elem_of_fmap. by exists x. }
  split; [|split].
  - intros p active cnt w0.
    destruct (poll_pass p active [] cnt w0)
      as (cnt' & w1 & added & Hrun & Htr & _ & _ & Hup & _ & Hpo).
    by exists cnt', w1, added.
  - intros Hfin. destruct (inactive_bound tasks0 Hfin) as [k Hk].
    set (w0 := set_trace (fun t => t ++
                 [Write (Text ("[INFO] Total number of tasks is "
                               +:+ pretty (length tasks0) +:+ "."))]) w).
    destruct (monitor_loop_terminates interval_s k 0 active0 0 w0)
      as (cnt' & w1 & added & passes & Hrun & Htr & _ & Hdb & Hup & Hsl
          & Hdone & Hbusy).
    { intros x Hx. destruct (Hk x.2 (Hmem x Hx)) as (q & Hq & Hoff).
      exists q. split; [lia | done]. }
    exists k, (set_trace (fun t => t ++ [Write (Summary cnt')]) w1),
      ([Write (Text ("[INFO] Total number of tasks is "
                     +:+ pretty (length tasks0) +:+ "."))]
       ++ added ++ [Write (Summary cnt')]), passes.
    split.
    { unfold monitor_tasks. fold active0. unfold bind at 1, write at 1.
      unfold emit at 1. cbn beta iota. fold w0. unfold bind at 1.
      rewrite Hrun. reflexivity. }
    split.
    { cbn [trace set_trace]. rewrite Htr. unfold w0. cbn [trace set_trace].
      by rewrite <- !app_assoc. }
    rewrite !updates_app, !sleeps_app. cbn [updates sleeps omap].
    rewrite ?app_nil_l, ?app_nil_r.
    split; [by rewrite Hup, Hsnd|]. split; [done|]. split; [done|].
    split.
    + intros t Ht.
      destruct (Hdone (t_description t, t)) as (q & Hq & Hoff).
      { apply list_elem_of_fmap. by exists t. }
      exists q. split; [lia | done].
    + intros n Hn. destruct (Hbusy n Hn) as (x & Hx & Hon).
      exists x.2. split; [by apply Hmem|]. intros q Hq. apply Hon. lia.
  - intros (t & Ht & Hon) fuel.
    set (w0 := set_trace (fun t => t ++
                 [Write (Text ("[INFO] Total number of tasks is "
                               +:+ pretty (length tasks0) +:+ "."))]) w).
    destruct (monitor_loop_diverges interval_s fuel 0 active0 0 w0)
      as [w' Hrun].
    { exists (t_description t, t). split; [|done].
      apply list_elem_of_fmap. by exists t. }
    exists w'. unfold monitor_tasks. fold active0.
    unfold bind at 1, write at 1. unfold emit at 1. cbn beta iota.
    fold w0. unfold bind at 1. by rewrite Hrun.
Qed.

Lemma monitor_tasks_spec_witness :
  exists fuel w',
    monitor_tasks fuel sample_tasks 10 empty_state = (Ret (Some tt), w') /\
    updates (trace w') ≡ₚ
      [(1, "GRID01_S2_2022-03-01"); (0, "GRID01_PERMANENTWATERJRC")].
Proof.
  destruct (proj1 (proj2 (monitor_tasks_spec sample_tasks 10 empty_state)))
    as (fuel & w' & added & passes & Hrun & Htr & Hup & _).
  - intros t Ht. exists 2%nat.
    apply elem_of_cons in Ht as [->|Ht]; [done|].
    apply elem_of_cons in Ht as [->|Ht]; [done|].
    by apply elem_of_nil in Ht.
  - exists fuel, w'. split; [done|]. rewrite Htr. exact Hup.
Defined.

Lemma monitor_tasks_sample :
  let r := monitor_tasks 3 sample_tasks 10 empty_state in
  r.1 = Ret (Some tt) /\
  updates (trace r.2) =
    [(0, "GRID01_PERMANENTWATERJRC"); (1, "GRID01_S2_2022-03-01")] /\
  sleeps (trace r.2) = [10; 10; 10] /\
  polls (trace r.2) =
    ["GRID01_S2_2022-03-01"; "GRID01_PERMANENTWATERJRC_2022";
     "GRID01_S2_2022-03-01"; "GRID01_PERMANENTWATERJRC_2022";
     "GRID01_S2_2022-03-01"].
Proof. by vm_compute. Qed.

(** * Further properties *)

(** ** The ledger *)

Lemma upsert_lookup image_id new t :
  upsert image_id new t !! image_id =
  Some (match t !! image_id with
        | None => new
        | Some old =>
            Row (r_patch_name old) (r_satellite old) (r_date old)
              (r_datetime old) (r_solarday old) (r_solardatetime old)
              (r_cloud_probability new) (r_valids new) (r_status new)
              (r_data_path new)
        end).
Proof.
  unfold upsert. destruct (t !! image_id); by rewrite lookup_insert_eq.
Qed.

Lemma upsert_lookup_ne image_id k new t :
  k <> image_id -> upsert image_id new t !! k = t !! k.
Proof.
  intros Hne. unfold upsert.
  destruct (t !! image_id); by rewrite lookup_insert_ne.
Qed.

Lemma do_update_download_db desc name constellation solar_day
    utcdatetime_save solardatetime_save cloud_probability valids status
    data_path w :
  db (do_update_download desc name constellation solar_day
        utcdatetime_save solardatetime_save cloud_probability valids
        status data_path w).2
  = upsert desc
      (Row name constellation solar_day utcdatetime_save solar_day
         solardatetime_save cloud_probability valids status data_path)
      (db w).
Proof. reflexivity. Qed.

(** X1. Writing the same record twice leaves the ledger as writing it
    once does; a write touches no other key, and the keys of the ledger
    afterwards are those it had and the key written. *)
Theorem do_update_download_idempotent (desc : string)
    (name constellation solar_day : option string)
    (utcdatetime_save solardatetime_save : option Z)
    (cloud_probability valids : option Q) (status : Z)
    (data_path : option string) (w : state) :
  let m := do_update_download desc name constellation solar_day
             utcdatetime_save solardatetime_save cloud_probability valids
             status data_path in
  db (m (m w).2).2 = db (m w).2 /\
  (forall k, k <> desc -> db (m w).2 !! k = db w !! k) /\
  dom (db (m w).2) = {[desc]} ∪ dom (db w).
Proof.
  intros m. subst m. rewrite !do_update_download_db.
  split; [|split].
  - apply map_eq. intros k. destruct (decide (k = desc)) as [->|Hne].
    + rewrite !upsert_lookup. by destruct (db w !! desc).
    + by rewrite !upsert_lookup_ne.
  - intros k Hne. by apply upsert_lookup_ne.
  - unfold upsert. destruct (db w !! desc) eqn:E; by rewrite dom_insert_L.
Qed.

Lemma do_update_download_idempotent_witness :
  db (do_update_download "GRID02_S2_2022-03-01" (Some "GRID02")
        (Some "S2") (Some "2022-03-01") None None None None (-1) None
        done_state).2 !! "GRID01_S2_2022-03-01"
  = db done_state !! "GRID01_S2_2022-03-01".
Proof.
  destruct (do_update_download_idempotent "GRID02_S2_2022-03-01"
              (Some "GRID02") (Some "S2") (Some "2022-03-01") None None
              None None (-1) None done_state)
    as (_ & Hne & _).
  by apply Hne.
Defined.

(** X2. A record that was written is found again under its key: with
    the status, the metrics and the path just written, and with the
    patch, satellite and dates just written when the key was new, but
    those of the row that was there when it was not. *)
Theorem do_update_download_select (desc : string)
    (name constellation solar_day : option string)
    (utcdatetime_save solardatetime_save : option Z)
    (cloud_probability valids : option Q) (status : Z)
    (data_path : option string) (w : state) :
  let w1 := (do_update_download desc name constellation solar_day
               utcdatetime_save solardatetime_save cloud_probability
               valids status data_path w).2 in
  exists row,
    (run_select desc w1).1 = Ret (Some row) /\
    r_status row = status /\
    r_cloud_probability row = cloud_probability /\
    r_valids row = valids /\
    r_data_path row = data_path /\
    match db w !! desc with
    | None =>
        r_patch_name row = name /\ r_satellite row = constellation /\
        r_date row = solar_day /\ r_datetime row = utcdatetime_save /\
        r_solarday row = solar_day /\
        r_solardatetime row = solardatetime_save
    | Some old =>
        r_patch_name row = r_patch_name old /\
        r_satellite row = r_satellite old /\
        r_date row = r_date old /\ r_datetime row = r_datetime old /\
        r_solarday row = r_solarday old /\
        r_solardatetime row = r_solardatetime old
    end.
Proof.
  intros w1. subst w1. unfold run_select, bind, emit.
  cbn [fst snd db set_trace]. rewrite do_update_download_db.
  rewrite upsert_lookup. eexists. split; [reflexivity|].
  by destruct (db w !! desc).
Qed.

(** ** The permanent water loop, as a whole *)

(** Whatever the ledger holds and the platform answers, an iteration of
    the water loop ends normally or by [continue], leaves the ledger as
    it was, and appends at most the task that the download returned. *)
Lemma process_patch_outcome cfg env aoi_geom w :
  exists out w' added,
    process_patch cfg env aoi_geom w = (out, w') /\
    (forall e, out <> Raise e) /\
    trace w' = trace w ++ added /\
    forallb (fun e => negb (is_ledger_write e)) added = true /\
    db w' = db w /\
    (tasks w' = tasks w \/
     exists t, download_permanent_water env aoi_geom = Ok (Some t) /\
               tasks w' = tasks w ++ [t]).
Proof.
  unfold process_patch. run.
  destruct (db w !! (patch_name aoi_geom +:+ "_PERMANENTWATERJRC"))
    as [row|]; simpl;
    [destruct (r_status row =? 1); simpl|];
    try destruct (download_permanent_water env aoi_geom)
      as [[t|]|what] eqn:Hd; simpl.
  all: eexists _, _, _; (split; [reflexivity|]); (split; [done|]);
    (split; [trace_eq|]); (split; [reflexivity|]); (split; [done|]);
    first [by left | right; by eexists].
Qed.

Lemma water_loop_run (cfg : config) (env : platform)
    (aois_data : list aoi) (w : state) :
  exists w' added,
    water_loop cfg env aois_data w = (Ret tt, w') /\
    db w' = db w /\
    tasks w `prefix_of` tasks w' /\
    (length (tasks w') <= length (tasks w) + length aois_data)%nat /\
    trace w' = trace w ++ added /\
    forallb (fun e => negb (is_ledger_write e)) added = true.
Proof.
  unfold water_loop. revert w.
  induction aois_data as [|a aois IH]; intros w.
  - exists w, []. simpl. rewrite app_nil_r.
    split_and!; try done. lia.
  - destruct (process_patch_outcome cfg env a w)
      as (out & w1 & added1 & Hrun & Hout & Htr1 & Hw1 & Hdb1 & Hts1).
    destruct (IH w1) as (w' & added & Hloop & Hdb & Hpre & Hlen & Htr & Hw).
    exists w', (added1 ++ added). cbn [for_each]. rewrite Hrun.
    split; [by destruct out as [[]| |e]; [| |destruct (Hout e)]|].
    split; [congruence|].
    split.
    { etrans; [|exact Hpre].
      destruct Hts1 as [-> | (t & _ & ->)]; [done | by apply prefix_app_r]. }
    split.
    { cbn [length].
      destruct Hts1 as [Heq | (t & _ & Heq)]; rewrite Heq in Hlen;
        rewrite ?length_app in Hlen; simpl in Hlen; lia. }
    split; [by rewrite Htr, Htr1, <- app_assoc|].
    rewrite forallb_app. by rewrite Hw1, Hw.
Qed.

(** X3. The permanent water loop never writes to the ledger: whatever
    the patches, the ledger and the answers of the platform, it ends
    normally with the ledger as it found it, and with the task list
    extended at its end only, by one task per patch at most. *)
Theorem water_loop_keeps_ledger (cfg : config) (env : platform)
    (aois_data : list aoi) (w : state) :
  exists w' added,
    water_loop cfg env aois_data w = (Ret tt, w') /\
    db w' = db w /\
    tasks w `prefix_of` tasks w' /\
    (length (tasks w') <= length (tasks w) + length aois_data)%nat /\
    trace w' = trace w ++ added /\
    forallb (fun e => negb (is_ledger_write e)) added = true.
Proof. apply water_loop_run. Qed.

(** ** The monitor and the ledger *)

Lemma apply_updates_cons u us t :
  apply_updates (u :: us) t = apply_updates us (update_status u.1 u.2 t).
Proof. reflexivity. Qed.

Lemma apply_updates_dom us t : dom (apply_updates us t) = dom t.
Proof.
  revert t. induction us as [|u us IH]; intros t; [done|].
  rewrite apply_updates_cons, IH. unfold update_status.
  apply dom_alter_L.
Qed.

Lemma apply_updates_lookup_ne us t k :
  k ∉ us.*2 -> apply_updates us t !! k = t !! k.
Proof.
  revert t. induction us as [|u us IH]; intros t Hk; [done|].
  rewrite apply_updates_cons, IH.
  - unfold update_status. apply lookup_alter_ne.
    intros Heq. apply Hk. rewrite fmap_cons, Heq. by left.
  - intros Hin. apply Hk. rewrite fmap_cons. by right.
Qed.

(** A run of the loop, with enough fuel or not. *)
Lemma monitor_loop_run interval_s fuel : forall p active cnt w,
  exists r w' added,
    monitor_loop fuel interval_s p active cnt w = (Ret r, w') /\
    trace w' = trace w ++ added /\
    tasks w' = tasks w /\
    db w' = apply_updates (updates added) (db w) /\
    (updates added).*2 ⊆ (final_update <$> active.*2).*2.
Proof.
  induction fuel as [|fuel IH]; intros p active cnt w.
  - destruct active as [|x active].
    + exists (Some cnt), w, []. simpl. rewrite app_nil_r.
      by split_and!.
    + exists None, w, []. simpl. rewrite app_nil_r.
      split_and!; try done. apply list_subseteq_nil.
  - destruct active as [|x active].
    + exists (Some cnt), w, []. simpl. rewrite app_nil_r.
      by split_and!.
    + rewrite monitor_loop_step. set (l := x :: active) in *.
      match goal with
      | |- context [for_fold _ _ l ?w0] =>
          destruct (poll_pass p l [] cnt w0)
            as (cnt1 & w1 & added1 & Hrun1 & Htr1 & Hts1 & Hdb1 & Hup1
                & Hsl1 & _)
      end.
      rewrite Hrun1. cbn [fst snd app].
      match goal with
      | |- context [monitor_loop fuel _ _ ?l' ?c ?w0] =>
          destruct (IH (S p) l' c w0)
            as (r & w' & added & Hrun & Htr & Hts & Hdb & Hup)
      end.
      rewrite Hrun.
      exists r, w',
        ([Write (Text ("[INFO] " +:+ pretty (length l)
                       +:+ " active tasks running"));
          Write (Text "[INFO] Polling status of actve tasks ...")]
         ++ added1 ++ [Sleep interval_s] ++ added).
      split; [reflexivity|]. split.
      { rewrite Htr. cbn [trace set_trace]. rewrite Htr1.
        cbn [trace set_trace]. by rewrite <- !app_assoc. }
      split; [by rewrite Hts; cbn [tasks set_trace]; rewrite Hts1|].
      rewrite !updates_app. cbn [updates omap].
      rewrite ?app_nil_l, ?app_nil_r.
      split.
      { rewrite Hdb, apply_updates_app. cbn [db set_trace].
        by rewrite Hdb1. }
      rewrite fmap_app. apply list_subseteq_app_iff_l. split.
      * rewrite Hup1. intros k Hk.
        apply list_elem_of_fmap in Hk as (u & -> & Hu).
        apply list_elem_of_fmap in Hu as (t & -> & Ht).
        apply list_elem_of_fmap in Ht as (y & -> & Hy).
        apply list_elem_of_filter in Hy as [_ Hy].
        apply list_elem_of_fmap. exists (final_update y.2). split; [done|].
        apply list_elem_of_fmap. exists y.2. split; [done|].
        apply list_elem_of_fmap. by exists y.
      * etrans; [exact Hup|]. intros k Hk.
        apply list_elem_of_fmap in Hk as (u & -> & Hu).
        apply list_elem_of_fmap in Hu as (t & -> & Ht).
        apply list_elem_of_fmap in Ht as (y & -> & Hy).
        apply list_elem_of_filter in Hy as [_ Hy].
        apply list_elem_of_fmap. exists (final_update y.2). split; [done|].
        apply list_elem_of_fmap. exists y.2. split; [done|].
        apply list_elem_of_fmap. by exists y.
Qed.

Lemma monitor_tasks_run (fuel : nat) (tasks0 : list task)
    (interval_s : Z) (w : state) :
  exists r w',
    monitor_tasks fuel tasks0 interval_s w = (Ret r, w') /\
    dom (db w') = dom (db w) /\
    tasks w' = tasks w /\
    (forall k, k ∉ (final_update <$> tasks0).*2 ->
               db w' !! k = db w !! k).
Proof.
  set (active0 := map (fun task => (t_description task, task)) tasks0).
  assert (Hsnd : active0.*2 = tasks0).
  { unfold active0. rewrite <- list_fmap_compose. apply list_fmap_id. }
  set (w0 := set_trace (fun t => t ++
               [Write (Text ("[INFO] Total number of tasks is "
                             +:+ pretty (length tasks0) +:+ "."))]) w).
  destruct (monitor_loop_run interval_s fuel 0 active0 0 w0)
    as (r & w1 & added & Hrun & Htr & Hts & Hdb & Hup).
  assert (Hm : monitor_tasks fuel tasks0 interval_s w =
               match r with
               | Some c =>
                   (Ret (Some tt),
                    set_trace (fun t => t ++ [Write (Summary c)]) w1)
               | None => (Ret None, w1)
               end).
  { unfold monitor_tasks. fold active0. unfold bind at 1, write at 1.
    unfold emit at 1. cbn beta iota. fold w0. unfold bind at 1.
    rewrite Hrun. by destruct r. }
  rewrite Hsnd in Hup.
  destruct r as [c|]; eexists _, _; (split; [exact Hm|]);
    cbn [db tasks set_trace]; rewrite Hdb, Hts.
  all: split; [apply apply_updates_dom|]; split; [done|].
  all: intros k Hk; apply apply_updates_lookup_ne;
    intros Hin; apply Hk; by apply Hup.
Qed.

(** X4. The monitor never adds a row to the ledger, nor removes one:
    whether the loop ends or the fuel runs out, the keys of the ledger
    are those it had, the task list is as it was, and a row is as it
    was unless its key is the key of the final update of one of the
    tasks. *)
Theorem monitor_tasks_keeps_keys (fuel : nat) (tasks0 : list task)
    (interval_s : Z) (w : state) :
  exists r w',
    monitor_tasks fuel tasks0 interval_s w = (Ret r, w') /\
    dom (db w') = dom (db w) /\
    tasks w' = tasks w /\
    (forall k, k ∉ (final_update <$> tasks0).*2 ->
               db w' !! k = db w !! k).
Proof. apply monitor_tasks_run. Qed.

Lemma monitor_tasks_keeps_keys_witness :
  exists r w',
    monitor_tasks 3 sample_tasks 10 done_state = (Ret r, w') /\
    db w' !! "GRID01_S2_2021-01-01" = None.
Proof.
  destruct (monitor_tasks_keeps_keys 3 sample_tasks 10 done_state)
    as (r & w' & Hrun & _ & _ & Hne).
  exists r, w'. split; [done|]. rewrite Hne; [done|].
  intros Hin. apply (bool_decide_pack _) in Hin. by vm_compute in Hin.
Defined.

(** ** The failure counter of the monitor *)

Lemma poll_pass_count p xs : forall acc cnt w,
  (for_fold (poll_task p) (acc, cnt) xs w).1 =
  Ret (acc ++ filter (fun x => t_active x.2 p) xs,
       (cnt + length (filter (fun x => ~ t_active x.2 p /\
                                       t_state x.2 <> "COMPLETED") xs))%nat).
Proof.
  induction xs as [|[t task] xs IH]; intros acc cnt w.
  - simpl. by rewrite app_nil_r, Nat.add_0_r.
  - cbn [for_fold]. unfold bind at 1. unfold poll_task at 1. run.
    destruct (t_active task p) eqn:Ha.
    + rewrite IH. rewrite filter_cons_True by (simpl; by rewrite Ha).
      rewrite filter_cons_False
        by (simpl; rewrite Ha; intros [Hn _]; by apply Hn).
      by rewrite <- app_assoc.
    + destruct (String.eqb_spec (t_state task) "COMPLETED") as [Hst|Hst];
        simpl; rewrite IH.
      * rewrite filter_cons_False by (simpl; rewrite Ha; auto).
        rewrite filter_cons_False by (simpl; intros [_ Hn]; by apply Hn).
        done.
      * rewrite filter_cons_False by (simpl; rewrite Ha; auto).
        rewrite filter_cons_True by (simpl; rewrite Ha; auto).
        simpl. do 2 f_equal. lia.
Qed.

Lemma failed_split p (l : list (string * task)) :
  (length (filter (fun x => ~ t_active x.2 p /\
                            t_state x.2 <> "COMPLETED") l)
   + length (filter (fun t => t_state t <> "COMPLETED")
               (filter (fun x => t_active x.2 p) l).*2)
   = length (filter (fun t => t_state t <> "COMPLETED") l.*2))%nat.
Proof.
  induction l as [|x l IH]; [done|].
  rewrite fmap_cons, !filter_cons.
  destruct (t_active x.2 p) eqn:Ha;
    repeat case_decide; rewrite ?fmap_cons, ?filter_cons;
    repeat case_decide; simpl in *; rewrite ?Ha in *; simpl in *;
    try lia; exfalso; tauto.
Qed.

Lemma monitor_loop_count interval_s k : forall p active cnt w,
  (forall x, x ∈ active ->
     exists q, (p <= q < p + k)%nat /\ t_active x.2 q = false) ->
  (monitor_loop k interval_s p active cnt w).1 =
  Ret (Some (cnt + length (filter (fun t => t_state t <> "COMPLETED")
                             active.*2))%nat).
Proof.
  induction k as [|k IH]; intros p active cnt w Hfin.
  - destruct active as [|x active].
    + simpl. by rewrite Nat.add_0_r.
    + destruct (Hfin x) as (q & Hq & _); [by left | exfalso; lia].
  - destruct active as [|x active].
    + simpl. by rewrite Nat.add_0_r.
    + rewrite monitor_loop_step. set (l := x :: active) in *.
      match goal with
      | |- context [for_fold _ _ l ?w0] =>
          pose proof (poll_pass_count p l [] cnt w0) as Hc;
          destruct (for_fold (poll_task p) ([], cnt) l w0) as [o w1]
      end.
      simpl in Hc. subst o. cbn [fst snd].
      rewrite IH.
      * rewrite <- (failed_split p l). do 2 f_equal. lia.
      * intros y Hy. apply list_elem_of_filter in Hy as [Hact Hy].
        destruct (Hfin y Hy) as (q & Hq & Hoff).
        exists q. split; [|done].
        destruct (decide (q = p)) as [->|]; [|lia].
        by rewrite Hoff in Hact.
Qed.

(** X5. When every job ends, the last line the monitor writes reports
    as failed exactly the jobs whose final state is not COMPLETED. *)
Theorem monitor_tasks_reports_failures (tasks0 : list task)
    (interval_s : Z) (w : state) :
  (forall t, t ∈ tasks0 -> exists p, t_active t p = false) ->
  exists fuel w',
    monitor_tasks fuel tasks0 interval_s w = (Ret (Some tt), w') /\
    last (trace w') =
      Some (Write (Summary
                     (length (filter (fun t => t_state t <> "COMPLETED")
                                tasks0)))).
Proof.
  intros Hfin. destruct (inactive_bound tasks0 Hfin) as [k Hk].
  set (active0 := map (fun task => (t_description task, task)) tasks0).
  assert (Hsnd : active0.*2 = tasks0).
  { unfold active0. rewrite <- list_fmap_compose. apply list_fmap_id. }
  set (w0 := set_trace (fun t => t ++
               [Write (Text ("[INFO] Total number of tasks is "
                             +:+ pretty (length tasks0) +:+ "."))]) w).
  pose proof (monitor_loop_count interval_s k 0 active0 0 w0) as Hc.
  rewrite Hsnd in Hc.
  destruct (monitor_loop k interval_s 0 active0 0 w0) as [o w1] eqn:Hrun.
  simpl in Hc. rewrite Hc in Hrun.
  - exists k, (set_trace (fun t => t ++
                 [Write (Summary
                           (length (filter
                                      (fun t => t_state t <> "COMPLETED")
                                      tasks0)))]) w1).
    split.
    + unfold monitor_tasks. fold active0. unfold bind at 1, write at 1.
      unfold emit at 1. cbn beta iota. fold w0. unfold bind at 1.
      by rewrite Hrun.
    + cbn [trace set_trace]. apply last_snoc.
  - intros x Hx. destruct (Hk x.2) as (q & Hq & Hoff).
    { rewrite <- Hsnd. apply list_elem_of_fmap. by exists x. }
    exists q. split; [lia | done].
Qed.

Lemma monitor_tasks_reports_failures_witness :
  exists fuel w',
    monitor_tasks fuel sample_tasks 10 empty_state = (Ret (Some tt), w') /\
    last (trace w') = Some (Write (Summary 1)).
Proof.
  apply (monitor_tasks_reports_failures sample_tasks 10 empty_state).
  intros t Ht. exists 2%nat.
  apply elem_of_cons in Ht as [->|Ht]; [done|].
  apply elem_of_cons in Ht as [->|Ht]; [done|].
  by apply elem_of_nil in Ht.
Defined.

(** ** The selection of the patches *)

Lemma drop_duplicates_seen_filter (f : string) rows : forall seen,
  filter (fun r => patch_name r = f) (drop_duplicates_seen seen rows) =
  if decide (f ∈ seen) then []
  else take 1 (filter (fun r => patch_name r = f) rows).
Proof.
  induction rows as [|r rows IH]; intros seen.
  - simpl. by case_decide.
  - simpl. case_bool_decide as Hr.
    + rewrite IH. case_decide as Hf; [done|].
      rewrite (filter_cons_False _ r); [done|].
      intros Heq. apply Hf. by rewrite <- Heq.
    + rewrite !filter_cons. case_decide as Hname.
      * rewrite IH. rewrite decide_True by (rewrite Hname; by left).
        rewrite decide_False by (by rewrite <- Hname). done.
      * rewrite IH. repeat case_decide; try done.
        -- exfalso. apply elem_of_cons in H as [?|?]; [congruence|done].
        -- exfalso. apply H. by right.
Qed.

Lemma drop_duplicates_nil rows : drop_duplicates rows = [] <-> rows = [].
Proof.
  split; [|by intros ->].
  destruct rows as [|r rows]; [done|]. unfold drop_duplicates.
  cbn [drop_duplicates_seen].
  rewrite bool_decide_eq_false_2 by apply not_elem_of_nil. done.
Qed.

Lemma select_patches_run (cfg : config) (aois_data : list aoi)
    (w : state) :
  exists o w',
    select_patches cfg aois_data w = (o, w') /\
    db w' = db w /\ tasks w' = tasks w /\
    o =
    if decide (aois_data = [])
    then Raise (SystemExit "[ERR] No valid grid patches selected - exiting.")
    else
      match grid_name_filter cfg with
      | Some name =>
          if decide (name = "") then Ret (drop_duplicates aois_data)
          else
            match filter (fun r => patch_name r = name) aois_data with
            | [] => Raise (SystemExit ("[ERR] " +:+ name
                                       +:+ " not found in selection."))
            | r :: _ => Ret [r]
            end
      | None => Ret (drop_duplicates aois_data)
      end.
Proof.
  unfold select_patches. run.
  destruct (decide (aois_data = [])) as [->|Hne].
  { by eexists _, _. }
  assert (Hlen : (length (drop_duplicates aois_data) =? 0)%nat = false).
  { apply Nat.eqb_neq. intros Hl. apply Hne, drop_duplicates_nil.
    by apply nil_length_inv. }
  rewrite Hlen. simpl.
  destruct (grid_name_filter cfg) as [name|]; [|by eexists _, _].
  destruct (String.eqb_spec name "") as [->|Hname]; simpl.
  { by eexists _, _. }
  rewrite decide_False by done.
  unfold drop_duplicates. rewrite drop_duplicates_seen_filter.
  rewrite decide_False by apply not_elem_of_nil.
  destruct (filter (fun r => patch_name r = name) aois_data);
    by eexists _, _.
Qed.

(** X6. The selection of the patches ends the run when the table is
    empty, and when a patch name is asked for that no row carries.
    Otherwise it answers the table without its duplicates or, when a
    name is asked for, the first row of that name alone. *)
Theorem select_patches_spec (cfg : config) (aois_data : list aoi)
    (w : state) :
  (select_patches cfg aois_data w).1 =
  if decide (aois_data = [])
  then Raise (SystemExit "[ERR] No valid grid patches selected - exiting.")
  else
    match grid_name_filter cfg with
    | Some name =>
        if decide (name = "") then Ret (drop_duplicates aois_data)
        else
          match filter (fun r => patch_name r = name) aois_data with
          | [] => Raise (SystemExit ("[ERR] " +:+ name
                                     +:+ " not found in selection."))
          | r :: _ => Ret [r]
          end
    | None => Ret (drop_duplicates aois_data)
    end.
Proof.
  destruct (select_patches_run cfg aois_data w)
    as (o & w' & Hrun & _ & _ & Ho).
  by rewrite Hrun, <- Ho.
Qed.

(** ** The order of the groups *)

Lemma string_compare_refl s : String.compare s s = Eq.
Proof.
  induction s as [|a s IH]; [done|]. simpl.
  unfold Ascii.compare. by rewrite N.compare_refl.
Qed.

Lemma string_compare_lt_trans s1 s2 s3 :
  String.compare s1 s2 = Lt -> String.compare s2 s3 = Lt ->
  String.compare s1 s3 = Lt.
Proof.
  intros H12 H23.
  assert (Hle : String.le s1 s3).
  { trans s2; unfold String.le, String.leb; [by rewrite H12 | by rewrite H23]. }
  unfold String.le, String.leb in Hle.
  destruct (String.compare s1 s3) eqn:H13; [|done|done].
  apply String.compare_eq_iff in H13 as ->.
  rewrite String.compare_antisym, H23 in H12. discriminate.
Qed.

Lemma key_compare_refl k : key_compare k k = Eq.
Proof.
  destruct k as [[[a b] c] d]. unfold key_compare, lex.
  by rewrite !string_compare_refl.
Qed.

Lemma key_compare_eq k1 k2 : key_compare k1 k2 = Eq -> k1 = k2.
Proof.
  destruct k1 as [[[a1 b1] c1] d1], k2 as [[[a2 b2] c2] d2].
  unfold key_compare, lex.
  destruct (String.compare a1 a2) eqn:Ha; try done.
  destruct (String.compare b1 b2) eqn:Hb; try done.
  destruct (String.compare c1 c2) eqn:Hc; try done.
  intros Hd.
  apply String.compare_eq_iff in Ha, Hb, Hc, Hd. by subst.
Qed.

Lemma key_compare_antisym k1 k2 :
  key_compare k1 k2 = CompOpp (key_compare k2 k1).
Proof.
  destruct k1 as [[[a1 b1] c1] d1], k2 as [[[a2 b2] c2] d2].
  unfold key_compare, lex.
  rewrite (String.compare_antisym a2 a1), (String.compare_antisym b2 b1),
    (String.compare_antisym c2 c1), (String.compare_antisym d2 d1).
  by destruct (String.compare a1 a2), (String.compare b1 b2),
    (String.compare c1 c2), (String.compare d1 d2).
Qed.

Lemma lex_lt_trans (c12 c23 c13 d12 d23 d13 : comparison) :
  (c12 = Eq -> c13 = c23) ->
  (c23 = Eq -> c13 = c12) ->
  (c12 = Lt -> c23 = Lt -> c13 = Lt) ->
  (d12 = Lt -> d23 = Lt -> d13 = Lt) ->
  lex c12 d12 = Lt -> lex c23 d23 = Lt -> lex c13 d13 = Lt.
Proof.
  intros He1 He2 Hc Hd. unfold lex.
  destruct c12, c23; try done; intros H12 H23.
  - rewrite He1 by done. by apply Hd.
  - by rewrite He1.
  - by rewrite He2.
  - by rewrite Hc.
Qed.

Lemma string_compare_eq_l s1 s2 s3 :
  String.compare s1 s2 = Eq -> String.compare s1 s3 = String.compare s2 s3.
Proof. by intros ->%String.compare_eq_iff. Qed.

Lemma string_compare_eq_r s1 s2 s3 :
  String.compare s2 s3 = Eq -> String.compare s1 s3 = String.compare s1 s2.
Proof. by intros ->%String.compare_eq_iff. Qed.

Lemma key_compare_lt_trans k1 k2 k3 :
  key_compare k1 k2 = Lt -> key_compare k2 k3 = Lt ->
  key_compare k1 k3 = Lt.
Proof.
  destruct k1 as [[[a1 b1] c1] d1], k2 as [[[a2 b2] c2] d2],
    k3 as [[[a3 b3] c3] d3].
  unfold key_compare.
  apply lex_lt_trans;
    [apply string_compare_eq_l | apply string_compare_eq_r
    | apply string_compare_lt_trans |].
  apply lex_lt_trans;
    [apply string_compare_eq_l | apply string_compare_eq_r
    | apply string_compare_lt_trans |].
  apply lex_lt_trans;
    [apply string_compare_eq_l | apply string_compare_eq_r
    | apply string_compare_lt_trans |].
  apply string_compare_lt_trans.
Qed.

Lemma key_le_trans : Transitive key_le.
Proof.
  intros k1 k2 k3. unfold key_le. intros H12 H23.
  destruct (key_compare k1 k2) eqn:E12; [| |done].
  - by apply key_compare_eq in E12 as ->.
  - destruct (key_compare k2 k3) eqn:E23; [| |done].
    + apply key_compare_eq in E23 as <-. by rewrite E12.
    + by rewrite (key_compare_lt_trans _ _ _ E12 E23).
Qed.

Lemma key_le_total : Total key_le.
Proof.
  intros k1 k2. unfold key_le.
  rewrite (key_compare_antisym k2 k1).
  destruct (key_compare k1 k2); simpl; auto.
Qed.

Lemma key_le_antisym : AntiSymm (=) key_le.
Proof.
  intros k1 k2. unfold key_le. rewrite (key_compare_antisym k2 k1).
  destruct (key_compare k1 k2) eqn:E; simpl; try done.
  intros _ _. by apply key_compare_eq.
Qed.

(** X7. The groups come in increasing order of their keys, whatever the
    order of the rows of the table: two tables with the same rows give
    the same sequence of keys. The rows of a group keep the order they
    have in the table. *)
Theorem groupby_order (rows : list scene) :
  StronglySorted key_le (groupby rows).*1 /\
  (forall i j k1 k2,
     (groupby rows).*1 !! i = Some k1 ->
     (groupby rows).*1 !! j = Some k2 ->
     (i < j)%nat -> key_compare k1 k2 = Lt) /\
  (forall rows', rows ≡ₚ rows' -> (groupby rows).*1 = (groupby rows').*1) /\
  (forall k g, (k, g) ∈ groupby rows -> g `sublist_of` rows).
Proof.
  pose proof key_le_trans. pose proof key_le_total.
  pose proof key_le_antisym.
  assert (Hs : StronglySorted key_le (groupby rows).*1).
  { rewrite groupby_keys. apply StronglySorted_merge_sort; apply _. }
  assert (Hnd : NoDup (groupby rows).*1).
  { rewrite groupby_keys, merge_sort_Permutation.
    apply NoDup_remove_dups. }
  split; [done|]. split; [|split].
  - intros i j k1 k2 Hi Hj Hij.
    assert (Hle : key_le k1 k2).
    { apply (StronglySorted_app_1_elem_of key_le
               (take j (groupby rows).*1) (drop j (groupby rows).*1)).
      - by rewrite take_drop.
      - apply list_elem_of_lookup. exists i.
        by rewrite lookup_take_lt.
      - apply list_elem_of_lookup. exists 0%nat.
        by rewrite lookup_drop, Nat.add_0_r. }
    unfold key_le in Hle.
    destruct (key_compare k1 k2) eqn:E; [|done|done].
    apply key_compare_eq in E as ->.
    pose proof (NoDup_lookup _ i j k2 Hnd Hi Hj). lia.
  - intros rows' Hperm. rewrite !groupby_keys.
    apply (Sorted_unique key_le).
    + apply Sorted_merge_sort, _.
    + apply Sorted_merge_sort, _.
    + rewrite !merge_sort_Permutation.
      apply NoDup_Permutation; try apply NoDup_remove_dups.
      intros k. rewrite !elem_of_remove_dups.
      by rewrite Hperm.
  - intros k g [_ ->]%groupby_elem. apply sublist_filter.
Qed.

Lemma groupby_order_witness :
  key_compare ("GRID01", "2022-03-01", "S2A", "flood")
    ("GRID01", "2022-03-02", "S2A", "flood") = Lt.
Proof.
  destruct (groupby_order
              [sample_scene "GRID01" "2022-03-02" "S2A" "flood";
               adjacent_scene;
               sample_scene "GRID01" "2022-03-01" "S2A" "flood"])
    as (_ & Hlt & _).
  apply (Hlt 0%nat 1%nat); [reflexivity | reflexivity | lia].
Defined.

(** ** The fate of a unit *)









(** ** Runs of the image loop over a ledger that is not empty *)

(** The iteration for a unit whose row is at status 1. *)
Lemma process_group_skips cfg env n i name solar_day satellite tag images
    row w :
  let desc := desc_of name (constellation_of satellite) solar_day in
  db w !! desc = Some row ->
  r_status row = 1 ->
  exists out w' added,
    process_group cfg env n
      (i, ((name, solar_day, satellite, tag), images)) w = (out, w') /\
    (forall e, out <> Raise e) /\
    db w' = db w /\ tasks w' = tasks w /\
    trace w' = trace w ++ added /\
    exports added = [] /\ upserts added = [] /\
    forallb (fun e => negb (metric_or_submission e)) added = true.
Proof.
  intros desc Hrow Hst. unfold process_group. fold desc. run.
  destruct (istaskrunning env i (t_description <$> tasks w) desc)
    as [[]|] eqn:E; simpl; rewrite ?Hrow; simpl; rewrite ?Hst; simpl.
  all: eexists _, _, _; (split; [reflexivity|]); (split; [done|]);
    (split; [done|]); (split; [done|]); (split; [trace_eq|]);
    by repeat split.
Qed.

(** What an iteration may write, whatever happens. *)
Lemma process_group_upserts cfg env n i name solar_day satellite tag
    images w :
  let desc := desc_of name (constellation_of satellite) solar_day in
  exists out w' added,
    process_group cfg env n
      (i, ((name, solar_day, satellite, tag), images)) w = (out, w') /\
    (forall e, out <> Raise e) /\
    trace w' = trace w ++ added /\
    (upserts added = [] /\ db w' = db w \/
     exists row, (r_status row = 0 \/ r_status row = -1) /\
                 upserts added = [(desc, r_status row)] /\
                 db w' = upsert desc row (db w)).
Proof.
  intros desc. unfold process_group. fold desc. run. oracle_cases.
  all: eexists _, _, _; (split; [reflexivity|]); (split; [done|]);
    (split; [trace_eq|]).
  all: first [ left; by split
             | right; eexists; split; [|split; reflexivity];
               simpl; auto ].
Qed.

(** A row at status 1 survives an iteration, whatever its key. *)
Lemma process_group_keeps_done cfg env n i name solar_day satellite tag
    images w :
  exists out w' added,
    process_group cfg env n
      (i, ((name, solar_day, satellite, tag), images)) w = (out, w') /\
    (forall e, out <> Raise e) /\
    trace w' = trace w ++ added /\
    (forall k s, (k, s) ∈ upserts added ->
       k = desc_of name (constellation_of satellite) solar_day /\
       (s = 0 \/ s = -1)) /\
    (forall k,
       k <> desc_of name (constellation_of satellite) solar_day ->
       db w' !! k = db w !! k) /\
    (forall k row, db w !! k = Some row -> r_status row = 1 ->
                   db w' !! k = Some row).
Proof.
  set (desc := desc_of name (constellation_of satellite) solar_day).
  destruct (process_group_upserts cfg env n i name solar_day satellite
              tag images w)
    as (out & w' & added & Hrun & Hout & Htr & Hup).
  fold desc in Hup.
  exists out, w', added. split; [done|]. split; [done|]. split; [done|].
  split; [|split].
  - intros k s Hks.
    destruct Hup as [[Hu _] | (row & Hst & Hu & _)]; rewrite Hu in Hks.
    + by apply elem_of_nil in Hks.
    + apply list_elem_of_singleton in Hks as [= -> ->]. by split.
  - intros k Hk.
    destruct Hup as [[_ ->] | (row & _ & _ & ->)]; [done|].
    by apply upsert_lookup_ne.
  - intros k row Hrow Hst.
    destruct (decide (k = desc)) as [->|Hk].
    + destruct (process_group_skips cfg env n i name solar_day satellite
                  tag images row w Hrow Hst)
        as (out2 & w2 & added2 & Hrun2 & _ & Hdb2 & _).
      fold desc in Hrun2. rewrite Hrun in Hrun2.
      injection Hrun2 as _ <-. by rewrite Hdb2.
    + destruct Hup as [[_ ->] | (row' & _ & _ & ->)]; [done|].
      by rewrite upsert_lookup_ne.
Qed.

Lemma upserts_app l1 l2 : upserts (l1 ++ l2) = upserts l1 ++ upserts l2.
Proof. apply omap_app. Qed.

Lemma for_each_keeps_done cfg env n
    (igs : list (nat * (key * list scene))) w :
  exists w' added,
    for_each (process_group cfg env n) igs w = (Ret tt, w') /\
    trace w' = trace w ++ added /\
    (forall k s, (k, s) ∈ upserts added ->
       k ∈ unit_desc <$> igs /\ (s = 0 \/ s = -1)) /\
    (forall k, k ∉ unit_desc <$> igs -> db w' !! k = db w !! k) /\
    (forall k row, db w !! k = Some row -> r_status row = 1 ->
                   db w' !! k = Some row).
Proof.
  revert w. induction igs as [|[i [[[[name day] sat] tag] images]] igs IH];
    intros w.
  - exists w, []. simpl. rewrite app_nil_r. split_and!; try done.
    intros k s Hks. by apply elem_of_nil in Hks.
  - destruct (process_group_keeps_done cfg env n i name day sat tag
                images w)
      as (out & w1 & added1 & Hrun & Hout & Htr1 & Hup1 & Hne1 & Hdone1).
    destruct (IH w1) as (w' & added & Hloop & Htr & Hup & Hne & Hdone).
    exists w', (added1 ++ added).
    cbn [for_each]. unfold key in *. rewrite Hrun.
    split; [by destruct out as [[]| |e]; [| |destruct (Hout e)]|].
    split; [by rewrite Htr, Htr1, <- app_assoc|].
    rewrite fmap_cons. cbn [unit_desc].
    split; [|split].
    + intros k s. rewrite upserts_app, elem_of_app. intros [Hks|Hks].
      * destruct (Hup1 k s Hks) as [-> Hs]. split; [by left | done].
      * destruct (Hup k s Hks) as [Hk Hs]. split; [by right | done].
    + intros k Hk. rewrite Hne, Hne1; [done | |].
      * intros ->. apply Hk. by left.
      * intros Hin. apply Hk. by right.
    + intros k row Hrow Hst. apply Hdone; [|done]. by apply Hdone1.
Qed.

(** X10. The image loop writes to the ledger only under descriptions of
    its units and only with status 0 or -1; it leaves every other row
    as it was; and it leaves as it was every row that is at status 1,
    whatever its key. *)
Theorem image_loop_statuses (cfg : config) (env : platform)
    (aois_grp : list (key * list scene)) (w : state) :
  exists w' added,
    image_loop cfg env aois_grp w = (Ret tt, w') /\
    trace w' = trace w ++ added /\
    (forall k s, (k, s) ∈ upserts added ->
       k ∈ unit_desc <$> enumerate aois_grp /\ (s = 0 \/ s = -1)) /\
    (forall k, k ∉ unit_desc <$> enumerate aois_grp ->
               db w' !! k = db w !! k) /\
    (forall k row, db w !! k = Some row -> r_status row = 1 ->
                   db w' !! k = Some row).
Proof. apply for_each_keeps_done. Qed.

Lemma image_loop_statuses_witness :
  exists w',
    image_loop default_cfg sample_env [sample_group] done_state
    = (Ret tt, w') /\
    db w' !! "GRID01_S2_2022-03-01" = Some done_row.
Proof.
  destruct (image_loop_statuses default_cfg sample_env [sample_group]
              done_state)
    as (w' & added & Hrun & _ & _ & _ & Hdone).
  exists w'. split; [done|]. by apply Hdone.
Defined.

Lemma for_each_rerun cfg env n (igs : list (nat * (key * list scene))) w :
  (forall ig, ig ∈ igs ->
     exists row, db w !! unit_desc ig = Some row /\ r_status row = 1) ->
  exists w' added,
    for_each (process_group cfg env n) igs w = (Ret tt, w') /\
    db w' = db w /\ tasks w' = tasks w /\
    trace w' = trace w ++ added /\
    exports added = [] /\ upserts added = [] /\
    forallb (fun e => negb (metric_or_submission e)) added = true.
Proof.
  revert w. induction igs as [|[i [[[[name day] sat] tag] images]] igs IH];
    intros w Hall.
  - exists w, []. simpl. rewrite app_nil_r. by split_and!.
  - destruct (Hall (i, (name, day, sat, tag, images))) as (row & Hrow & Hst);
      [by left|].
    cbn [unit_desc] in Hrow.
    destruct (process_group_skips cfg env n i name day sat tag images row
                w Hrow Hst)
      as (out & w1 & added1 & Hrun & Hout & Hdb1 & Hts1 & Htr1 & Hex1
          & Hup1 & Hm1).
    destruct (IH w1) as (w' & added & Hloop & Hdb & Hts & Htr & Hex & Hup
                         & Hm).
    { intros ig Hig. rewrite Hdb1. apply Hall. by right. }
    exists w', (added1 ++ added).
    cbn [for_each]. unfold key in *. rewrite Hrun.
    split; [by destruct out as [[]| |e]; [| |destruct (Hout e)]|].
    split; [congruence|]. split; [congruence|].
    split; [by rewrite Htr, Htr1, <- app_assoc|].
    rewrite exports_app, upserts_app, forallb_app, Hex1, Hex, Hup1, Hup,
      Hm1, Hm.
    by split_and!.
Qed.

(** X11. A run over units that are all at status 1 in the ledger does
    nothing to them: whatever the platform answers, the image loop
    computes no metric, starts no export, writes nothing to the ledger
    and queues no task. *)
Theorem rerun_submits_nothing (cfg : config) (env : platform)
    (aois_grp : list (key * list scene)) (w : state) :
  (forall name solar_day satellite tag images,
     ((name, solar_day, satellite, tag), images) ∈ aois_grp ->
     exists row,
       db w !! desc_of name (constellation_of satellite) solar_day
         = Some row /\
       r_status row = 1) ->
  exists w' added,
    image_loop cfg env aois_grp w = (Ret tt, w') /\
    db w' = db w /\ tasks w' = tasks w /\
    trace w' = trace w ++ added /\
    exports added = [] /\ upserts added = [] /\
    forallb (fun e => negb (metric_or_submission e)) added = true.
Proof.
  intros Hall. apply for_each_rerun.
  intros [i [[[[name day] sat] tag] images]] Hig. cbn [unit_desc].
  apply (Hall name day sat tag images).
  unfold enumerate in Hig. apply list_elem_of_lookup in Hig as [j Hj].
  apply lookup_zip_with_Some in Hj as (a & b & [= <- <-] & _ & Hb).
  by eapply list_elem_of_lookup_2.
Qed.

Lemma rerun_submits_nothing_witness :
  exists w',
    image_loop default_cfg sample_env [sample_group] done_state
    = (Ret tt, w') /\
    db w' = db done_state /\ tasks w' = [].
Proof.
  destruct (rerun_submits_nothing default_cfg sample_env [sample_group]
              done_state)
    as (w' & added & Hrun & Hdb & Hts & _).
  - intros name day sat tag images [= -> -> -> -> ->]%list_elem_of_singleton.
    by exists done_row.
  - by exists w'.
Defined.

(** ** [main] as a whole *)

Lemma set_periods_run (cfg : config) (today_date : datetime) (w : state) :
  let clamp d := if later d today_date then today_date else d in
  exists o w',
    set_periods cfg today_date w = (o, w') /\
    db w' = db w /\ tasks w' = tasks w /\
    o =
    if later (flood_start_date cfg) today_date
    then Raise (SystemExit "[ERR] Flood start date set to future time!")
    else if match ref_start_date cfg, ref_end_date cfg with
            | Some ref_start, Some _ => later ref_start today_date
            | _, _ => false
            end
    then Raise (SystemExit "[ERR] Ref start date set to future time!")
    else Ret ((flood_start_date cfg, clamp (flood_end_date cfg)),
              match ref_start_date cfg, ref_end_date cfg with
              | Some ref_start, Some ref_end =>
                  Some (ref_start, clamp ref_end)
              | _, _ => None
              end).
Proof.
  intros clamp. subst clamp. unfold set_periods. run.
  destruct (later (flood_end_date cfg) today_date),
    (later (flood_start_date cfg) today_date); simpl;
    try (by eexists _, _).
  all: destruct (ref_start_date cfg) as [rs|]; simpl;
    try (by eexists _, _).
  all: destruct (ref_end_date cfg) as [re|]; simpl;
    try (by eexists _, _).
  all: destruct (later re today_date), (later rs today_date); simpl;
    by eexists _, _.
Qed.







(** A whole run on the sample platform: the unit ends at status 1, and
    the permanent water layer, whose job has run as well, has no row. *)
Lemma main_sample :
  let r := main default_cfg sample_env (Datetime 2022 1646900000)
             [Aoi "GRID01" "POLYGON EMPTY"] 3 empty_state in
  r.1 = Ret (Some tt) /\
  r_status <$> db r.2 !! "GRID01_S2_2022-03-01" = Some 1 /\
  db r.2 !! "GRID01_PERMANENTWATERJRC" = None /\
  t_description <$> tasks r.2
  = ["GRID01_S2_2022-03-01"; "GRID01_PERMANENTWATERJRC_2022"].
Proof. by vm_compute. Qed.

(** ** The command line *)

Lemma sorted2_ordered a b :
  instant (sorted2 a b).1 <= instant (sorted2 a b).2.
Proof.
  unfold sorted2. destruct (instant b <? instant a) eqn:E; simpl.
  - apply Z.ltb_lt in E. lia.
  - apply Z.ltb_ge in E. lia.
Qed.

Lemma parse_args_config strptime args w cfg w1 :
  parse_args strptime args w = (Ret cfg, w1) ->
  instant (flood_start_date cfg) <= instant (flood_end_date cfg) /\
  match ref_start_date cfg, ref_end_date cfg with
  | Some a, Some b => instant a <= instant b
  | None, None => True
  | _, _ => False
  end.
Proof.
  unfold parse_args, parse_date. run.
  destruct (strptime (arg_flood_start_date args)) as [d1|]; simpl;
    [|done].
  destruct (strptime (arg_flood_end_date args)) as [d2|]; simpl; [|done].
  pose proof (sorted2_ordered d1 d2) as Hf.
  destruct (sorted2 d1 d2) as [fs fe]. simpl in Hf.
  destruct (arg_ref_start_date args) as [rs|],
    (arg_ref_end_date args) as [re|]; simpl; try done.
  - destruct (negb (String.eqb rs "") && negb (String.eqb re "")); simpl.
    + destruct (strptime rs) as [d3|]; simpl; [|done].
      destruct (strptime re) as [d4|]; simpl; [|done].
      pose proof (sorted2_ordered d3 d4) as Hr.
      destruct (sorted2 d3 d4) as [a b]. simpl in Hr.
      by intros [= <- _].
    + by intros [= <- _].
  - by intros [= <- _].
Qed.

(** X14. Through the command line the two dates of a range reach [main]
    in order, whatever the order they are given in, and the reference
    dates reach it both or not at all. So the periods that [main]
    queries never end before they start; and a flood start date in the
    future always comes with the warning about the end date, written
    before the run exits. *)
Theorem parse_args_orders (strptime : string -> answer datetime)
    (args : cli_args) (w : state) (cfg : config) (w1 : state) :
  parse_args strptime args w = (Ret cfg, w1) ->
  instant (flood_start_date cfg) <= instant (flood_end_date cfg) /\
  match ref_start_date cfg, ref_end_date cfg with
  | Some a, Some b => instant a <= instant b
  | None, None => True
  | _, _ => False
  end /\
  (forall today_date w2 period_flood period_ref w3,
     set_periods cfg today_date w2 = (Ret (period_flood, period_ref), w3) ->
     instant period_flood.1 <= instant period_flood.2 /\
     forall p, period_ref = Some p -> instant p.1 <= instant p.2) /\
  (forall today_date w2,
     later (flood_start_date cfg) today_date = true ->
     set_periods cfg today_date w2 =
       (Raise (SystemExit "[ERR] Flood start date set to future time!"),
        set_trace (fun t => t ++
          [Write (Text
             "[WARN] Flood end date set to future time. Setting today.")])
          w2)).
Proof.
  intros Hparse.
  destruct (parse_args_config strptime args w cfg w1 Hparse) as [Hf Hr].
  split; [done|]. split; [done|]. split.
  - intros today_date w2 pf pr w3 Hset.
    destruct (set_periods_run cfg today_date w2)
      as (o & w' & Hrun & _ & _ & Ho).
    rewrite Hset in Hrun. injection Hrun as <- _.
    unfold later in *.
    destruct (instant (flood_start_date cfg) >? instant today_date) eqn:Es;
      [done|].
    destruct (ref_start_date cfg) as [rs|], (ref_end_date cfg) as [re|];
      try done.
    + destruct (instant rs >? instant today_date) eqn:Er; [done|].
      injection Ho as -> ->. simpl. split.
      * destruct (instant (flood_end_date cfg) >? instant today_date);
          simpl; lia.
      * intros p [= <-]. simpl.
        destruct (instant re >? instant today_date); simpl; lia.
    + injection Ho as -> ->. simpl. split; [|done].
      destruct (instant (flood_end_date cfg) >? instant today_date);
        simpl; lia.
  - intros today_date w2 Hs. unfold set_periods. run.
    assert (He : later (flood_end_date cfg) today_date = true).
    { unfold later in *. lia. }
    by rewrite He, Hs.
Qed.

Lemma parse_args_orders_witness :
  exists cfg,
    parse_args sample_strptime sample_args empty_state
      = (Ret cfg, empty_state) /\
    instant (flood_start_date cfg) <= instant (flood_end_date cfg).
Proof.
  eexists. split; [reflexivity|].
  apply (parse_args_orders sample_strptime sample_args empty_state _
           empty_state).
  reflexivity.
Defined.

(** ** Sentinel-2 units without a cloud product *)

(** X15. For a Sentinel-2 unit of which an image lacks the cloud
    product, [getInfo] plays no part: the iteration is the same whatever
    it would answer. The cloud figure of such a unit is the sentinel
    -1, which passes every cloud threshold that is not below -0.01, so
    that the overlap alone decides what the gate answers. *)
Theorem no_cloud_product (cfg : config) (env : platform) (n i : nat)
    (name solar_day satellite tag : string) (images : list scene)
    (w : state) :
  constellation_of satellite = "S2" ->
  forallb s2cloudless images = false ->
  (forall get_info',
     process_group cfg env n
       (i, ((name, solar_day, satellite, tag), images)) w
     = process_group cfg
         (Platform (istaskrunning env) (overlap env) get_info'
            (start_export env) (datetime_mean env)
            (download_permanent_water env) (images_by_query_grid env))
         n (i, ((name, solar_day, satellite, tag), images)) w) /\
  (forall info_ee,
     metrics_are env i name solar_day satellite images info_ee ->
     overlap env i name = Ok (valids info_ee) /\
     cloud_probability info_ee = (-1)%Q) /\
  (forall valid_percentage w0,
     (-1 / 100 <= (thresholds cfg tag).2)%Q ->
     (apply_filters cfg tag (Info (-1) valid_percentage) w0).1
     = Ret (negb (Qltb valid_percentage (thresholds cfg tag).1))).
Proof.
  intros Hs2 Hall. split; [|split].
  - intros get_info'. unfold process_group. by rewrite Hs2, Hall.
  - intros info_ee (vp & Ho & Hi). rewrite Hs2, Hall in Hi.
    simpl in Hi. by subst info_ee.
  - intros vp w0 Htc. rewrite apply_filters_result.
    cbn [cloud_probability valids]. f_equal.
    replace (Qgtb (-1 / 100) (thresholds cfg tag).2) with false;
      [by rewrite andb_true_r|].
    symmetry. unfold Qgtb. by apply Qltb_false.
Qed.

Lemma no_cloud_product_witness :
  (apply_filters default_cfg "flood" (Info (-1) 0.5) empty_state).1
  = Ret true.
Proof.
  destruct (no_cloud_product default_cfg sample_env 1 0 "GRID01"
              "2022-03-01" "S2A" "flood"
              [Scene "20220301T000000_20220301T000000_T56JMQ"
                 "COPERNICUS/S2" false 1646092800 1646128800 "2022-03-01"
                 1646128800 "S2A" "flood" "GRID01"]
              empty_state eq_refl eq_refl)
    as (_ & _ & Hgate).
  rewrite Hgate; [reflexivity|]. by vm_compute.
Defined.

(** ** Identifiers and keys *)

Lemma append_nil (b : string) : "" +:+ b = b.
Proof. reflexivity. Qed.

Lemma append_cons (x : Ascii.ascii) (a b : string) :
  String x a +:+ b = String x (a +:+ b).
Proof. reflexivity. Qed.

Lemma prefix_app (p s : string) : String.prefix p (p +:+ s) = true.
Proof.
  induction p as [|c p IH]; rewrite ?append_nil, ?append_cons; simpl.
  - by destruct s.
  - destruct (Ascii.ascii_dec c c); [done|congruence].
Qed.

Lemma contains_app_r (needle a s : string) :
  contains needle s = true -> contains needle (a +:+ s) = true.
Proof.
  intros H. induction a as [|c a IH]; rewrite ?append_nil, ?append_cons;
    simpl; [done|].
  rewrite IH. by rewrite orb_true_r.
Qed.

Lemma contains_mid (needle a b : string) :
  contains needle (a +:+ needle +:+ b) = true.
Proof.
  apply contains_app_r.
  assert (H : forall s, String.prefix needle s = true ->
                        contains needle s = true).
  { intros [|x s] Hp; cbn [contains]; by rewrite Hp. }
  apply H, prefix_app.
Qed.

Lemma append_assoc (a b c : string) : (a +:+ b) +:+ c = a +:+ b +:+ c.
Proof.
  induction a as [|x a IH]; rewrite ?append_nil, ?append_cons; [done|].
  by f_equal.
Qed.

Lemma length_app (a b : string) :
  String.length (a +:+ b) = (String.length a + String.length b)%nat.
Proof.
  induction a as [|x a IH]; rewrite ?append_nil, ?append_cons; simpl;
    [done|].
  by rewrite IH.
Qed.

Lemma substring_app (a b : string) :
  String.substring 0 (String.length a) (a +:+ b) = a.
Proof.
  induction a as [|c a IH]; rewrite ?append_nil, ?append_cons; simpl.
  - by destruct b.
  - by rewrite IH.
Qed.

Lemma length_substring (m : nat) : forall s,
  (m <= String.length s)%nat ->
  String.length (String.substring 0 m s) = m.
Proof.
  induction m; intros [|c s] Hm; simpl in *; try done; try lia.
  rewrite IHm; lia.
Qed.

(** [(a + b)[:-n]] is [a] exactly when [b] has [n] characters, or
    fewer if [a] is empty. *)
Lemma drop_last_app (n : nat) (a b : string) :
  drop_last n (a +:+ b) = a <-> String.length b = n \/
    (String.length b < n)%nat /\ a = "".
Proof.
  unfold drop_last. split.
  - intros H. pose proof (f_equal String.length H) as HL.
    rewrite length_substring in HL by lia.
    rewrite length_app in HL.
    destruct (decide (n <= String.length a + String.length b)%nat).
    + left. lia.
    + right. split; [lia|]. destruct a; [done|]. simpl in HL. lia.
  - intros [<- | [Hlt ->]].
    + rewrite length_app.
      replace (String.length a + String.length b - String.length b)%nat
        with (String.length a) by lia.
      apply substring_app.
    + change ("" +:+ b) with b.
      replace (String.length b - n)%nat with 0%nat by lia.
      by destruct b.
Qed.

(** X16. When a task of the permanent water layer of a patch has ended,
    its description being the name of the patch,
    "_PERMANENTWATERJRC" and a suffix, [monitor_tasks] makes one UPDATE,
    with status 1 for a COMPLETED task and 0 for any other, under the
    description less its five last characters. That is the key under
    which the water loop looks the layer up exactly when the suffix has
    five characters. *)
Theorem water_task_key (p : nat) (acc : list (string * task) * nat)
    (t : string) (task : task) (aoi_geom : aoi) (suffix : string)
    (w : state) :
  let image_id := patch_name aoi_geom +:+ "_PERMANENTWATERJRC" in
  t_description task = image_id +:+ suffix ->
  t_active task p = false ->
  exists acc' w' added,
    poll_task p acc (t, task) w = (Ret acc', w') /\
    trace w' = trace w ++ added /\
    updates added =
      [(if String.eqb (t_state task) "COMPLETED" then 1 else 0,
        drop_last 5 (image_id +:+ suffix))] /\
    db w' = update_status
              (if String.eqb (t_state task) "COMPLETED" then 1 else 0)
              (drop_last 5 (image_id +:+ suffix)) (db w) /\
    (drop_last 5 (image_id +:+ suffix) = image_id <->
     String.length suffix = 5%nat).
Proof.
  intros image_id Hdesc Hact.
  assert (Hc : contains "PERMANENTWATERJRC" (image_id +:+ suffix) = true).
  { unfold image_id. rewrite append_assoc. apply contains_app_r.
    apply (contains_mid "PERMANENTWATERJRC" "_" suffix). }
  assert (Hkey : drop_last 5 (image_id +:+ suffix) = image_id <->
                 String.length suffix = 5%nat).
  { rewrite drop_last_app. split; [|by left].
    intros [H | [_ H]]; [done|].
    unfold image_id in H. by destruct (patch_name aoi_geom). }
  unfold poll_task. destruct acc as [active_tasks_new task_error_count].
  rewrite Hact, Hdesc, Hc.
  destruct (String.eqb (t_state task) "COMPLETED"); simpl; run.
  all: eexists _, _, _; (split; [reflexivity|]); (split; [trace_eq|]);
    (split; [done|]); (split; [done|]); exact Hkey.
Qed.

Lemma water_task_key_witness :
  exists acc' w',
    poll_task 1 ([], 0%nat)
      ("GRID01_PERMANENTWATERJRC_2022",
       Task "GRID01_PERMANENTWATERJRC_2022" (fun p => (p <? 1)%nat)
         "FAILED") empty_state = (Ret acc', w') /\
    updates (trace w') = [(0, "GRID01_PERMANENTWATERJRC")].
Proof.
  destruct (water_task_key 1 ([], 0%nat) "GRID01_PERMANENTWATERJRC_2022"
              (Task "GRID01_PERMANENTWATERJRC_2022"
                 (fun p => (p <? 1)%nat) "FAILED")
              (Aoi "GRID01" "POLYGON EMPTY") "_2022" empty_state
              eq_refl eq_refl)
    as (acc' & w' & added & Hrun & Htr & Hup & _).
  exists acc', w'. split; [done|].
  rewrite Htr. simpl. exact Hup.
Defined.

Lemma contains_LC_strip (p s : string) :
  p = "1_" \/ p = "2_" ->
  contains "LC" (p +:+ s) = contains "LC" s.
Proof. by intros [-> | ->]. Qed.

Lemma prefix_skip (p : string) : forall s,
  String.prefix p s = true -> s = p +:+ skip (String.length p) s.
Proof.
  induction p as [|c p IH]; intros s Hp; [done|].
  destruct s as [|c' s]; [done|]. simpl in Hp.
  destruct (Ascii.ascii_dec c c') as [<-|]; [|done].
  rewrite append_cons. simpl. f_equal. by apply IH.
Qed.

(** X17. [fix_landsat_gee_id] takes one errant prefix, "1_" or "2_", off
    an identifier that names a Landsat scene, and leaves every other
    identifier as it is: a clean Landsat identifier is recovered from
    its prefixed form, an identifier without "LC" is never changed, and
    the answer names a Landsat scene exactly when the identifier
    did. *)
Theorem fix_landsat_gee_id_strips (row : scene) :
  (forall id,
     contains "LC" id = true ->
     gee_id row = "1_" +:+ id \/ gee_id row = "2_" +:+ id ->
     fix_landsat_gee_id row = id) /\
  (contains "LC" (gee_id row) = false ->
   fix_landsat_gee_id row = gee_id row) /\
  (startswith (gee_id row) "1_" = false ->
   startswith (gee_id row) "2_" = false ->
   fix_landsat_gee_id row = gee_id row) /\
  contains "LC" (fix_landsat_gee_id row) = contains "LC" (gee_id row) /\
  (fix_landsat_gee_id row = gee_id row \/
   gee_id row = "1_" +:+ fix_landsat_gee_id row \/
   gee_id row = "2_" +:+ fix_landsat_gee_id row).
Proof.
  unfold fix_landsat_gee_id, startswith.
  split; [|split; [|split; [|split]]].
  - intros id Hid [-> | ->].
    + rewrite prefix_app, (contains_LC_strip "1_"), Hid; auto.
    + rewrite prefix_app, (contains_LC_strip "2_"), Hid; auto;
        try by rewrite orb_true_r.
  - intros ->. by rewrite andb_false_r.
  - by intros -> ->.
  - destruct (String.prefix "1_" (gee_id row)) eqn:H1;
      [|destruct (String.prefix "2_" (gee_id row)) eqn:H2]; simpl;
      [| |done].
    + destruct (contains "LC" (gee_id row)) eqn:Hc; [|done].
      rewrite (prefix_skip _ _ H1) in Hc.
      by rewrite contains_LC_strip in Hc; auto.
    + destruct (contains "LC" (gee_id row)) eqn:Hc; [|done].
      rewrite (prefix_skip _ _ H2) in Hc.
      by rewrite contains_LC_strip in Hc; auto.
  - destruct (String.prefix "1_" (gee_id row)) eqn:H1;
      [|destruct (String.prefix "2_" (gee_id row)) eqn:H2]; simpl;
      [| |by left].
    + destruct (contains "LC" (gee_id row)); [|by left].
      right; left. exact (prefix_skip _ _ H1).
    + destruct (contains "LC" (gee_id row)); [|by left].
      right; right. exact (prefix_skip _ _ H2).
Qed.

Lemma fix_landsat_gee_id_strips_witness :
  fix_landsat_gee_id
    (Scene "1_LC08_089079_20220301" "LANDSAT/LC08/C02/T1_TOA" false
       1646092800 1646128800 "2022-03-01" 1646128800 "LC08" "flood"
       "GRID01")
  = "LC08_089079_20220301".
Proof.
  apply (fix_landsat_gee_id_strips
           (Scene "1_LC08_089079_20220301" "LANDSAT/LC08/C02/T1_TOA" false
              1646092800 1646128800 "2022-03-01" 1646128800 "LC08"
              "flood" "GRID01")).
  - reflexivity.
  - by left.
Defined.
